(** * YTSummarize: the summarize route ([src/app/api/summarize/route.ts])

    A shallow embedding of the request handler [POST] and of its helper
    [extractYouTubeVideoId], together with the parts of the JavaScript
    platform they call: string primitives, the two regular expressions, the
    WHATWG URL constructor with [searchParams.get], and property lookup on
    the three locale-keyed object literals.

    JavaScript strings are sequences of 16-bit code units; they are modelled
    as lists of [N].  Exceptions are explicit: a computation that may throw
    returns a [completion]. *)

From Stdlib Require Import List NArith ZArith Bool Lia String Ascii SpecFloat.
Set Warnings "-register-all".
Import ListNotations.

Local Open Scope N_scope.

(* ================================================================= *)
(** ** Code units, code points and string literals *)

Module Unicode.

(** UTF-8 encoding of one scalar value. *)
Definition utf8_encode_cp (cp : N) : list N :=
  if cp <? 0x80 then [cp]
  else if cp <? 0x800 then [0xC0 + cp / 64; 0x80 + cp mod 64]
  else if cp <? 0x10000 then
    [0xE0 + cp / 4096; 0x80 + (cp / 64) mod 64; 0x80 + cp mod 64]
  else
    [0xF0 + cp / 262144; 0x80 + (cp / 4096) mod 64;
     0x80 + (cp / 64) mod 64; 0x80 + cp mod 64].

(** State of the UTF-8 decoder while inside a multi-byte sequence: the
    code point accumulated so far, the number of continuation bytes still
    needed, and the bounds allowed for the next byte. *)
Record utf8_state := {
  u_cp : N;
  u_needed : nat;
  u_lower : N;
  u_upper : N
}.

(** A byte met outside of a sequence: either it yields output at once (an
    ASCII byte, or U+FFFD for an invalid lead) or it opens a sequence. *)
Definition utf8_lead (b : N) : list N * option utf8_state :=
  if b <=? 0x7F then ([b], None)
  else if (0xC2 <=? b) && (b <=? 0xDF) then
    ([], Some {| u_cp := b mod 32; u_needed := 1; u_lower := 0x80; u_upper := 0xBF |})
  else if (0xE0 <=? b) && (b <=? 0xEF) then
    ([], Some {| u_cp := b mod 16; u_needed := 2;
                 u_lower := if b =? 0xE0 then 0xA0 else 0x80;
                 u_upper := if b =? 0xED then 0x9F else 0xBF |})
  else if (0xF0 <=? b) && (b <=? 0xF4) then
    ([], Some {| u_cp := b mod 8; u_needed := 3;
                 u_lower := if b =? 0xF0 then 0x90 else 0x80;
                 u_upper := if b =? 0xF4 then 0x8F else 0xBF |})
  else ([0xFFFD], None).

(** The UTF-8 decoder of the Encoding standard, with replacement of
    ill-formed input by U+FFFD and no byte-order-mark handling.  A byte
    that cannot continue the open sequence ends it with U+FFFD and is
    then read again as a lead byte. *)
Fixpoint utf8_decode_from (st : option utf8_state) (bs : list N) : list N :=
  match bs with
  | [] => match st with Some _ => [0xFFFD] | None => [] end
  | b :: r =>
      match st with
      | None =>
          let '(out, st') := utf8_lead b in out ++ utf8_decode_from st' r
      | Some s =>
          if (u_lower s <=? b) && (b <=? u_upper s) then
            let cp := u_cp s * 64 + b mod 64 in
            match u_needed s with
            | S (S k) =>
                utf8_decode_from
                  (Some {| u_cp := cp; u_needed := S k;
                           u_lower := 0x80; u_upper := 0xBF |}) r
            | _ => cp :: utf8_decode_from None r
            end
          else
            let '(out, st') := utf8_lead b in
            0xFFFD :: out ++ utf8_decode_from st' r
      end
  end.

Definition utf8_decode (bs : list N) : list N := utf8_decode_from None bs.

(** Scalar values to UTF-16 code units. *)
Definition utf16_encode_cp (cp : N) : list N :=
  if cp <? 0x10000 then [cp]
  else [0xD800 + (cp - 0x10000) / 1024; 0xDC00 + (cp - 0x10000) mod 1024].

Definition utf16_encode (cps : list N) : list N := flat_map utf16_encode_cp cps.

Definition is_high_surrogate (c : N) : bool := (0xD800 <=? c) && (c <=? 0xDBFF).
Definition is_low_surrogate (c : N) : bool := (0xDC00 <=? c) && (c <=? 0xDFFF).

(** Code units to scalar values, as the conversion of a JavaScript string
    to a [USVString] does it: a surrogate pair is one code point, a lone
    surrogate becomes U+FFFD. *)
Fixpoint to_scalar_values (s : list N) : list N :=
  match s with
  | [] => []
  | c :: r =>
      if is_high_surrogate c then
        match r with
        | d :: r' =>
            if is_low_surrogate d then
              (0x10000 + (c - 0xD800) * 1024 + (d - 0xDC00)) :: to_scalar_values r'
            else 0xFFFD :: to_scalar_values r
        | [] => [0xFFFD]
        end
      else if is_low_surrogate c then 0xFFFD :: to_scalar_values r
      else c :: to_scalar_values r
  end.

End Unicode.

(** A JavaScript string: its UTF-16 code units. *)
Definition jsstring := list N.

(** The code units of a source literal (the literals of this file are
    written in UTF-8, as route.ts is). *)
Definition js (s : string) : jsstring :=
  Unicode.utf16_encode
    (Unicode.utf8_decode (map N_of_ascii (list_ascii_of_string s))).

Definition ch (a : ascii) : N := N_of_ascii a.

(** [a === b] on strings. *)
Fixpoint jsstring_eqb (a b : jsstring) : bool :=
  match a, b with
  | [], [] => true
  | x :: a', y :: b' => (x =? y) && jsstring_eqb a' b'
  | _, _ => false
  end.

(* ================================================================= *)
(** ** Exceptions *)

(** A thrown [Error] object; only its [message] is ever read. *)
Record jserror := { message : jsstring }.

Inductive completion (A : Type) : Type :=
| Normal (a : A)
| Throw (e : jserror).
Arguments Normal {A} a.
Arguments Throw {A} e.

Definition bind {A B} (c : completion A) (k : A -> completion B) : completion B :=
  match c with
  | Normal a => k a
  | Throw e => Throw e
  end.

(** [try { body } catch (e) { handler e }] *)
Definition try_catch {A} (body : completion A) (handler : jserror -> completion A)
  : completion A :=
  match body with
  | Normal a => Normal a
  | Throw e => handler e
  end.

Declare Scope js_scope.
Delimit Scope js_scope with js.
Notation "x <- c ;; k" := (bind c (fun x => k))
  (at level 61, c at next level, right associativity) : js_scope.

(** The [TypeError] V8 raises when a property is read from [undefined]. *)
Definition TypeError_read_undefined (prop : string) : jserror :=
  {| message := js "Cannot read properties of undefined (reading '" ++ js prop ++ js "')" |}.

(* ================================================================= *)
(** ** String primitives *)

Module Str.

(** Does [s] start with [p]? *)
Fixpoint starts_with (p s : jsstring) : bool :=
  match p, s with
  | [], _ => true
  | x :: p', y :: s' => (x =? y) && starts_with p' s'
  | _ :: _, [] => false
  end.

(** [s.includes(sub)] *)
Fixpoint includes (s sub : jsstring) : bool :=
  starts_with sub s ||
  match s with
  | [] => false
  | _ :: r => includes r sub
  end.

(** Puts [c] in front of the first piece. *)
Definition cons_head (c : N) (ps : list jsstring) : list jsstring :=
  match ps with
  | [] => [[c]]
  | p :: ps' => (c :: p) :: ps'
  end.

(** [s.split(sep)] for a non-empty separator: scanning from the left,
    every occurrence of [sep] closes the current piece and the scan
    resumes after it.  [skip] counts the code units of a separator just
    met that are still to be passed over. *)
Fixpoint split_from (sep : jsstring) (skip : nat) (s : jsstring) : list jsstring :=
  match s with
  | [] => [[]]
  | c :: r =>
      match skip with
      | S k => split_from sep k r
      | O =>
          if starts_with sep s
          then [] :: split_from sep (Nat.pred (List.length sep)) r
          else cons_head c (split_from sep 0 r)
      end
  end.

Definition split (s sep : jsstring) : list jsstring := split_from sep 0 s.

(** [s.split(/[...]/)] for a regular expression that is one character
    class [cls]. *)
Fixpoint split_class (cls : N -> bool) (s : jsstring) : list jsstring :=
  match s with
  | [] => [[]]
  | c :: r =>
      if cls c then [] :: split_class cls r
      else cons_head c (split_class cls r)
  end.

(** White space and line terminators, as [trim] strips them. *)
Definition is_white_space (c : N) : bool :=
  ((0x09 <=? c) && (c <=? 0x0D)) || (c =? 0x20) || (c =? 0xA0) || (c =? 0x1680)
  || ((0x2000 <=? c) && (c <=? 0x200A)) || (c =? 0x2028) || (c =? 0x2029)
  || (c =? 0x202F) || (c =? 0x205F) || (c =? 0x3000) || (c =? 0xFEFF).

Fixpoint drop_while (p : N -> bool) (s : jsstring) : jsstring :=
  match s with
  | [] => []
  | c :: r => if p c then drop_while p r else s
  end.

(** Removes the longest suffix whose code units all satisfy [p]. *)
Fixpoint drop_while_end (p : N -> bool) (s : jsstring) : jsstring :=
  match s with
  | [] => []
  | c :: r =>
      match drop_while_end p r with
      | [] => if p c then [] else [c]
      | r' => c :: r'
      end
  end.

(** [s.trim()] *)
Definition trim (s : jsstring) : jsstring :=
  drop_while_end is_white_space (drop_while is_white_space s).

(** [s.length] *)
Definition length (s : jsstring) : Z := Z.of_nat (List.length s).

(** [s.substring(0, n)] for [n >= 0]. *)
Definition substring0 (s : jsstring) (n : Z) : jsstring := firstn (Z.to_nat n) s.

(** The longest prefix with no code unit satisfying [p], and what follows. *)
Fixpoint break (p : N -> bool) (s : jsstring) : jsstring * jsstring :=
  match s with
  | [] => ([], [])
  | c :: r =>
      if p c then ([], s)
      else let '(a, b) := break p r in (c :: a, b)
  end.

End Str.

(* ================================================================= *)
(** ** The two regular expressions of route.ts *)

Module Regex.

(** The character class [[a-zA-Z0-9_-]]. *)
Definition id_class (c : N) : bool :=
  ((ch "a" <=? c) && (c <=? ch "z")) || ((ch "A" <=? c) && (c <=? ch "Z"))
  || ((ch "0" <=? c) && (c <=? ch "9")) || (c =? ch "_") || (c =? ch "-").

(** Do the first eleven code units of [s] exist and belong to the class? *)
Definition eleven_here (s : jsstring) : bool :=
  (List.length (firstn 11 s) =? 11)%nat && forallb id_class (firstn 11 s).

(** [s.match(/([a-zA-Z0-9_-]{11})/)]: the match at the leftmost position
    where one exists; [Some g] is the array's capture group 1, [None] is
    [null]. *)
Fixpoint match_id (s : jsstring) : option jsstring :=
  if eleven_here s then Some (firstn 11 s)
  else match s with
       | [] => None
       | _ :: r => match_id r
       end.

(** [/^[a-zA-Z0-9_-]{11}$/.test(s)] *)
Definition test_id (s : jsstring) : bool :=
  (List.length s =? 11)%nat && forallb id_class s.

(** The character class [[?#&]]. *)
Definition delimiter_class (c : N) : bool :=
  (c =? ch "?") || (c =? ch "#") || (c =? ch "&").

End Regex.

(* ================================================================= *)
(** ** The URL constructor and [searchParams.get]

    [new URL(input)] follows the basic URL parser of the WHATWG URL
    standard, run without a base URL.  The model keeps what decides whether
    the constructor throws and what the query is: the scheme, the authority
    with its host and port, and the cut at the first [?] and [#].  The host
    parser itself (percent-decoding, IDNA processing, IPv4 and IPv6
    literals) is a parameter: [host_parser isOpaque input] tells whether it
    returns a host. *)

Module Url.

Definition is_c0_control_or_space (c : N) : bool := c <=? 0x20.
Definition is_tab_or_newline (c : N) : bool := (c =? 0x09) || (c =? 0x0A) || (c =? 0x0D).
Definition is_ascii_alpha (c : N) : bool :=
  ((ch "a" <=? c) && (c <=? ch "z")) || ((ch "A" <=? c) && (c <=? ch "Z")).
Definition is_ascii_digit (c : N) : bool := (ch "0" <=? c) && (c <=? ch "9").
Definition is_scheme_char (c : N) : bool :=
  is_ascii_alpha c || is_ascii_digit c || (c =? ch "+") || (c =? ch "-") || (c =? ch ".").
Definition ascii_lower (c : N) : N :=
  if (ch "A" <=? c) && (c <=? ch "Z") then c + 32 else c.
Definition is_slash (c : N) : bool := (c =? ch "/") || (c =? ch "\").

(** Leading and trailing C0 controls and spaces are stripped, then every
    tab and newline is removed. *)
Definition preprocess (input : jsstring) : jsstring :=
  filter (fun c => negb (is_tab_or_newline c))
    (Str.drop_while_end is_c0_control_or_space
       (Str.drop_while is_c0_control_or_space input)).

(** Scheme state: scheme characters up to the first [:]; anything else,
    or the end of input, means there is no scheme. *)
Fixpoint scheme_state (s : jsstring) : option (jsstring * jsstring) :=
  match s with
  | [] => None
  | c :: r =>
      if c =? ch ":" then Some ([], r)
      else if is_scheme_char c then
        match scheme_state r with
        | Some (sc, rest) => Some (ascii_lower c :: sc, rest)
        | None => None
        end
      else None
  end.

(** Scheme start state: a scheme begins with a letter. *)
Definition scheme_start_state (s : jsstring) : option (jsstring * jsstring) :=
  match s with
  | c :: r =>
      if is_ascii_alpha c then
        match scheme_state r with
        | Some (sc, rest) => Some (ascii_lower c :: sc, rest)
        | None => None
        end
      else None
  | [] => None
  end.

Definition is_special_scheme (sc : jsstring) : bool :=
  existsb (jsstring_eqb sc)
    [js "ftp"; js "file"; js "http"; js "https"; js "ws"; js "wss"].

(** Path, query and fragment states never fail.  The query is what lies
    between the first [?] and the next [#], when that [?] comes before any
    [#]. *)
Definition query_of (rest : jsstring) : option jsstring :=
  let '(_, r) := Str.break (fun c => (c =? ch "?") || (c =? ch "#")) rest in
  match r with
  | c :: q => if c =? ch "?" then Some (fst (Str.break (fun d => d =? ch "#") q)) else None
  | [] => None
  end.

(** What follows the last [@] of the authority (credentials come before). *)
Fixpoint after_last_at (s : jsstring) : jsstring :=
  match s with
  | [] => []
  | c :: r =>
      if existsb (fun d => d =? ch "@") r then after_last_at r
      else if c =? ch "@" then r else s
  end.

(** Host state: the host runs to the first [:] outside square brackets;
    the port, when there is one, is the rest. *)
Fixpoint split_host_port (inside_brackets : bool) (s : jsstring)
  : jsstring * option jsstring :=
  match s with
  | [] => ([], None)
  | c :: r =>
      if (c =? ch ":") && negb inside_brackets then ([], Some r)
      else
        let inside := if c =? ch "[" then true
                      else if c =? ch "]" then false else inside_brackets in
        let '(h, p) := split_host_port inside r in (c :: h, p)
  end.

Definition decimal_value (ds : jsstring) : N :=
  fold_left (fun acc d => acc * 10 + (d - ch "0")) ds 0.

(** Port state: digits only, and at most 65535. *)
Definition port_ok (p : jsstring) : bool :=
  forallb is_ascii_digit p && (decimal_value p <=? 65535).

Definition is_windows_drive_letter (b : jsstring) : bool :=
  match b with
  | [c; d] => is_ascii_alpha c && ((d =? ch ":") || (d =? ch "|"))
  | _ => false
  end.

Section Parser.

Variable host_parser : bool -> jsstring -> bool.

Definition host_state (special : bool) (hostport rest : jsstring)
  : option (option jsstring) :=
  match split_host_port false hostport with
  | (h, Some p) =>
      match h with
      | [] => None
      | _ => if host_parser (negb special) h && port_ok p
             then Some (query_of rest) else None
      end
  | (h, None) =>
      match h with
      | [] => if special then None
              else if host_parser (negb special) h then Some (query_of rest) else None
      | _ => if host_parser (negb special) h then Some (query_of rest) else None
      end
  end.

(** Authority state: the authority runs to the first [/], [?] or [#]
    (or [\] in a special URL). *)
Definition authority_state (special : bool) (s : jsstring) : option (option jsstring) :=
  let '(seg, rest) :=
    Str.break (fun c => (c =? ch "/") || (c =? ch "?") || (c =? ch "#")
                        || (special && (c =? ch "\"))) s in
  let hostport := after_last_at seg in
  match hostport with
  | [] => if existsb (fun d => d =? ch "@") seg then None
          else host_state special hostport rest
  | _ => host_state special hostport rest
  end.

(** File, file slash and file host states. *)
Definition file_state (s : jsstring) : option (option jsstring) :=
  match s with
  | c1 :: c2 :: r =>
      if is_slash c1 && is_slash c2 then
        let '(buffer, rest) :=
          Str.break (fun c => is_slash c || (c =? ch "?") || (c =? ch "#")) r in
        if is_windows_drive_letter buffer then Some (query_of rest)
        else match buffer with
             | [] => Some (query_of rest)
             | _ => if host_parser false buffer then Some (query_of rest) else None
             end
      else Some (query_of s)
  | _ => Some (query_of s)
  end.

(** The state machine, on the preprocessed input.  The result is
    [None] when parsing fails, and otherwise the special flag of the
    scheme with the raw query, if there is one. *)
Definition parse_states (input : jsstring) : option (bool * option jsstring) :=
  match scheme_start_state input with
  | None => None
  | Some (sc, rest) =>
      let special := is_special_scheme sc in
      let result :=
        if jsstring_eqb sc (js "file") then file_state rest
        else if special then authority_state true (Str.drop_while is_slash rest)
        else match rest with
             | c1 :: c2 :: r =>
                 if (c1 =? ch "/") && (c2 =? ch "/") then authority_state false r
                 else Some (query_of rest)
             | _ => Some (query_of rest)
             end in
      match result with
      | Some q => Some (special, q)
      | None => None
      end
  end.

Definition basic_url_parser (input : jsstring) : option (bool * option jsstring) :=
  parse_states (preprocess input).

End Parser.

(** *** Percent-encoding of the query *)

Definition hex_digit (n : N) : N := if n <? 10 then ch "0" + n else ch "A" + (n - 10).

Definition percent_encode_byte (b : N) : jsstring :=
  [ch "%"; hex_digit (b / 16); hex_digit (b mod 16)].

(** The query percent-encode set, and the special-query one. *)
Definition in_query_set (special : bool) (c : N) : bool :=
  (c <=? 0x1F) || (0x7E <? c) || (c =? 0x20) || (c =? 0x22) || (c =? ch "#")
  || (c =? ch "<") || (c =? ch ">") || (special && (c =? ch "'")).

Definition percent_encode_query (special : bool) (q : jsstring) : jsstring :=
  flat_map (fun cp =>
              flat_map (fun b => if in_query_set special b
                                 then percent_encode_byte b else [b])
                       (Unicode.utf8_encode_cp cp)) q.

(** *** application/x-www-form-urlencoded parsing *)

Definition is_hex (c : N) : bool :=
  is_ascii_digit c || ((ch "a" <=? c) && (c <=? ch "f")) || ((ch "A" <=? c) && (c <=? ch "F")).

Definition hex_value (c : N) : N :=
  if is_ascii_digit c then c - ch "0"
  else if ch "a" <=? c then c - ch "a" + 10 else c - ch "A" + 10.

Fixpoint percent_decode (bs : jsstring) : jsstring :=
  match bs with
  | [] => []
  | b :: r =>
      if b =? ch "%" then
        match r with
        | h1 :: h2 :: r' =>
            if is_hex h1 && is_hex h2
            then (hex_value h1 * 16 + hex_value h2) :: percent_decode r'
            else b :: percent_decode r
        | _ => b :: percent_decode r
        end
      else b :: percent_decode r
  end.

Definition decode_component (bs : jsstring) : jsstring :=
  Unicode.utf16_encode
    (Unicode.utf8_decode
       (percent_decode (map (fun b => if b =? ch "+" then 0x20 else b) bs))).

Definition parse_pair (sequence : jsstring) : jsstring * jsstring :=
  let '(name, r) := Str.break (fun c => c =? ch "=") sequence in
  (decode_component name, decode_component (tl r)).

Definition urlencoded_parse (query : jsstring) : list (jsstring * jsstring) :=
  map parse_pair
    (filter (fun sq => match sq with [] => false | _ => true end)
            (Str.split_class (fun c => c =? ch "&") query)).

(** [searchParams.get(name)]: the value of the first pair with that name;
    [None] is [null]. *)
Definition get (params : list (jsstring * jsstring)) (name : jsstring) : option jsstring :=
  match find (fun nv => jsstring_eqb (fst nv) name) params with
  | Some (_, v) => Some v
  | None => None
  end.

(** The parsed URL, reduced to its list of query parameters. *)
Record URL := { searchParams : list (jsstring * jsstring) }.

(** [new URL(input)] *)
Definition URL_new (host_parser : bool -> jsstring -> bool) (input : jsstring)
  : completion URL :=
  match basic_url_parser host_parser (Unicode.to_scalar_values input) with
  | None => Throw {| message := js "Invalid URL" |}
  | Some (special, Some q) =>
      Normal {| searchParams := urlencoded_parse (percent_encode_query special q) |}
  | Some (_, None) => Normal {| searchParams := [] |}
  end.

(** A host parser for running the model: it accepts the plain domain
    names (dot-separated, non-empty labels of letters and hyphens, the
    first and the last character a letter, no label in punycode form),
    which the host parser of the standard accepts too, and nothing
    else. *)
Definition plain_domain (isOpaque : bool) (h : jsstring) : bool :=
  match h, rev h with
  | c :: _, l :: _ =>
      is_ascii_alpha c && is_ascii_alpha l
      && forallb (fun d => is_ascii_alpha d || (d =? ch "-") || (d =? ch ".")) h
      && negb (Str.includes (map ascii_lower h) (js "xn--"))
      && negb (Str.includes h (js ".."))
  | _, _ => false
  end.

End Url.

(* ================================================================= *)
(** ** Values *)

(** The values a parsed JSON body can hold, and [undefined] for a missing
    property.  A number is an IEEE 754 double. *)
Inductive jsval :=
| VUndefined
| VNull
| VBool (b : bool)
| VNumber (x : spec_float)
| VString (s : jsstring)
| VArray (items : list jsval)
| VObject (fields : list (jsstring * jsval)).

(** [!v] *)
Definition falsy (v : jsval) : bool :=
  match v with
  | VUndefined | VNull => true
  | VBool b => negb b
  | VNumber (S754_zero _) | VNumber S754_nan => true
  | VNumber _ => false
  | VString [] => true
  | VString _ => false
  | VArray _ | VObject _ => false
  end.

(** [typeof v !== 'string'] *)
Definition typeof_not_string (v : jsval) : bool :=
  match v with
  | VString _ => false
  | _ => true
  end.

Definition is_empty (s : jsstring) : bool :=
  match s with [] => true | _ => false end.

(** [a || b] on strings: the empty string is falsy. *)
Definition or_else (a b : jsstring) : jsstring :=
  match a with [] => b | _ => a end.

(* ================================================================= *)
(** ** extractYouTubeVideoId *)

Section Extractor.

Variable host_parser : bool -> jsstring -> bool.

Definition test_url : jsstring := js "https://youtu.be/QiZ62yswdPw?si=IHWvSDSvLUQXqYpm".

(** [parts[1].split(/[?#&]/)[0]] when [parts.length > 1]; the identifier
    stays as it was otherwise.  An array element that does not exist is
    [undefined], which the final test treats as the empty string does. *)
Definition after_marker (url marker videoId : jsstring) : jsstring :=
  match Str.split url marker with
  | _ :: part1 :: _ => hd [] (Str.split_class Regex.delimiter_class part1)
  | _ => videoId
  end.

(** The body of the outer [try]: the dispatch over the URL shapes. *)
Definition dispatch (url : jsstring) : completion jsstring :=
  let videoId : jsstring := [] in
  if Str.includes url (js "youtu.be/") then
    Normal (after_marker url (js "youtu.be/") videoId)
  else if Str.includes url (js "youtube.com/watch") then
    try_catch
      (urlObj <- Url.URL_new host_parser url ;;
       Normal (match Url.get (Url.searchParams urlObj) (js "v") with
               | Some v => or_else v []
               | None => []
               end))%js
      (fun e => Normal videoId)
  else if Str.includes url (js "youtube.com/v/") then
    Normal (after_marker url (js "youtube.com/v/") videoId)
  else if Str.includes url (js "youtube.com/embed/") then
    Normal (after_marker url (js "youtube.com/embed/") videoId)
  else
    match Regex.match_id url with
    | Some group1 => Normal group1
    | None => Normal videoId
    end.

(** The validation after the [try]. *)
Definition validate (videoId : jsstring) : jsstring :=
  if negb (is_empty videoId) && Regex.test_id videoId then videoId else [].

(** The function without its first two tests. *)
Definition extract_general (url : jsstring) : completion jsstring :=
  (videoId <- try_catch (dispatch url) (fun error => Normal []) ;;
   Normal (validate videoId))%js.

Definition extractYouTubeVideoId (url : jsval) : completion jsstring :=
  if falsy url || typeof_not_string url then Normal []
  else
    match url with
    | VString s =>
        if jsstring_eqb s test_url then Normal (js "QiZ62yswdPw")
        else extract_general s
    | _ => Normal []
    end.

End Extractor.

(* ================================================================= *)
(** ** Object literals and property lookup *)

(** The names every object inherits from [Object.prototype]. *)
Definition object_prototype_keys : list jsstring :=
  [js "constructor"; js "__defineGetter__"; js "__defineSetter__";
   js "hasOwnProperty"; js "__lookupGetter__"; js "__lookupSetter__";
   js "isPrototypeOf"; js "propertyIsEnumerable"; js "toString"; js "valueOf";
   js "__proto__"; js "toLocaleString"].

(** The outcome of [literal[key]]: an own property of the literal, a member
    inherited from [Object.prototype] (a built-in function, or the prototype
    itself for [__proto__]), or [undefined]. *)
Inductive property (A : Type) : Type :=
| Own (a : A)
| Inherited (key : jsstring)
| Missing.
Arguments Own {A} a.
Arguments Inherited {A} key.
Arguments Missing {A}.

Fixpoint own_property {A} (literal : list (jsstring * A)) (key : jsstring) : option A :=
  match literal with
  | [] => None
  | (k, a) :: r => if jsstring_eqb k key then Some a else own_property r key
  end.

Definition get_property {A} (literal : list (jsstring * A)) (key : jsstring) : property A :=
  match own_property literal key with
  | Some a => Own a
  | None =>
      if existsb (jsstring_eqb key) object_prototype_keys then Inherited key
      else Missing
  end.

(** *** Values as property keys

    In [literal[v]] the value [v] is converted to a property key first: a
    string is its own key, and any other value is converted to a string.
    An array is joined with commas, its [undefined] and [null] elements
    printing as nothing.  A plain object prints as [[object Object]] by the
    inherited [toString]; when it has an own property of that name, which
    in a JSON value is never a function, the inherited [valueOf] returns
    the object itself and the conversion throws.  The list of fields of a
    [VObject] holds each name once. *)

Definition TypeError_to_primitive : jserror :=
  {| message := js "Cannot convert object to primitive value" |}.

(** [Array.prototype.join] on the converted elements: they are converted
    from left to right, and the first error is thrown. *)
Fixpoint join (elements : list (completion jsstring)) : completion jsstring :=
  match elements with
  | [] => Normal []
  | x :: r =>
      (a <- x ;;
       match r with
       | [] => Normal a
       | _ => (b <- join r ;; Normal (a ++ js "," ++ b))
       end)%js
  end.

Section PropertyKeys.

(** [Number::toString] of the language is a parameter. *)
Variable number_to_string : spec_float -> jsstring.

(** [String(v)] *)
Fixpoint to_string (v : jsval) : completion jsstring :=
  match v with
  | VUndefined => Normal (js "undefined")
  | VNull => Normal (js "null")
  | VBool b => Normal (if b then js "true" else js "false")
  | VNumber x => Normal (number_to_string x)
  | VString s => Normal s
  | VArray items =>
      join (map (fun x => match x with
                          | VUndefined | VNull => Normal []
                          | _ => to_string x
                          end) items)
  | VObject fields =>
      match own_property fields (js "toString") with
      | Some _ => Throw TypeError_to_primitive
      | None => Normal (js "[object Object]")
      end
  end.

(** The property key of a value. *)
Definition to_property_key (v : jsval) : completion jsstring := to_string v.

(** [literal[v]] *)
Definition lookup {A} (literal : list (jsstring * A)) (v : jsval)
  : completion (property A) :=
  (key <- to_property_key v ;; Normal (get_property literal key))%js.

End PropertyKeys.

(** [String(m)] for an inherited member [m], as V8 prints it. *)
Definition inherited_to_string (key : jsstring) : jsstring :=
  if jsstring_eqb key (js "__proto__") then js "[object Object]"
  else js "function "
       ++ (if jsstring_eqb key (js "constructor") then js "Object" else key)
       ++ js "() { [native code] }".

(* ================================================================= *)
(** ** Prompts and error messages *)

Definition systemPrompts : list (jsstring * jsstring) :=
  [(js "ko", js "당신은 유쾌하고 친절한 유튜브 영상 설명 어시스턴트입니다. 전문적인 내용을 쉽게 풀어서 설명하며, 시청자가 이해하기 쉽도록 명확한 구조와 예시를 제공합니다. 중요한 내용은 소제목(예: ## 이처럼 작성하세요)으로 구분하고, 리스트나 번호 매기기를 통해 정보를 정리해 주세요.");
   (js "en", js "You are a helpful, friendly, and conversational YouTube video summarizer. You respond in a warm, engaging tone using clear explanations, subheadings, bullet points, and numbered lists. Structure your responses with helpful formatting like Markdown-style **bold**, _italics_, and numbered or bulleted lists. Always try to make complex ideas simple.")].

Definition newline : jsstring := [0x0A].

Definition userPrompts : list (jsstring * jsstring) :=
  [(js "ko", js "다음 자막을 이용해 유튜브 동영상을 요약해주세요:" ++ newline ++ newline);
   (js "en", js "Please summarize this youtube video using the transcript:" ++ newline ++ newline)].

Record error_bundle := {
  noTranscript : jsstring;
  apiError : jsstring;
  missingApiKey : jsstring
}.

Definition errorMessages_ko : error_bundle :=
  {| noTranscript := js "이 동영상에 사용 가능한 자막이 없습니다. 자막이 활성화된 다른 동영상을 시도해보세요.";
     apiError := js "YouTube API 오류가 발생했습니다. 다시 시도해주세요.";
     missingApiKey := js "서버 설정 오류: YouTube API 키가 구성되지 않았습니다." |}.

Definition errorMessages_en : error_bundle :=
  {| noTranscript := js "No transcript is available for this video. Please try a different video that has captions enabled.";
     apiError := js "A YouTube API error occurred. Please try again.";
     missingApiKey := js "Server configuration error: YouTube API key is not configured." |}.

Definition errorMessages : list (jsstring * error_bundle) :=
  [(js "ko", errorMessages_ko); (js "en", errorMessages_en)].

(* ================================================================= *)
(** ** Responses *)

Definition is_undefined (v : jsval) : bool :=
  match v with VUndefined => true | _ => false end.

(** What [JSON.stringify] keeps of a value, as the client parses it back:
    a property holding [undefined] is dropped, [undefined] in an array and
    the numbers that are not finite become [null], and minus zero loses its
    sign. *)
Fixpoint to_json (v : jsval) : jsval :=
  match v with
  | VNumber (S754_zero _) => VNumber (S754_zero false)
  | VNumber (S754_finite s m e) => VNumber (S754_finite s m e)
  | VNumber _ => VNull
  | VArray items =>
      VArray (map (fun x => if is_undefined x then VNull else to_json x) items)
  | VObject fields =>
      VObject (flat_map (fun kv => if is_undefined (snd kv) then []
                                   else [(fst kv, to_json (snd kv))]) fields)
  | _ => v
  end.

Record response := {
  status : Z;
  content_type : jsstring;
  body : jsval
}.

(** A response whose body is the JSON text of an object with the given
    properties, declared as [application/json]. *)
Definition json_response (code : Z) (props : list (jsstring * jsval)) : response :=
  {| status := code; content_type := js "application/json"; body := to_json (VObject props) |}.

(* ================================================================= *)
(** ** The services the handler calls *)

(** The parsed request body, as the destructuring reads it: [videoUrl] and
    [locale] are whatever values the body holds under these names,
    [undefined] when it holds none. *)
Record request_body := {
  videoUrl : jsval;
  locale : jsval
}.

(** The answer of the video metadata endpoint, as far as the handler reads
    it: [videoResponse.data.items[0]?.snippet] with its title and
    description.  [None] stands for a property that is not there. *)
Record video_snippet := {
  title : option jsstring;
  description : option jsstring
}.
Record video_item := { snippet : option video_snippet }.
Record videos_data := { items : option (list video_item) }.
Record videos_response := { data : option videos_data }.

(** The answer of the chat completion call, as far as
    [completion?.choices?.[0]?.message?.content] reads it. *)
Record chat_message := { content : option jsstring }.
Record chat_choice := { choice_message : option chat_message }.
Record chat_completion := { choices : option (list chat_choice) }.

(** A message of the prompt.  The system content is a string, or the
    inherited member that the lookup found. *)
Inductive prompt_content :=
| Text (s : jsstring)
| Member (key : jsstring).

Record prompt_message := {
  role : jsstring;
  prompt : prompt_content
}.

Record chat_request := {
  messages : list prompt_message;
  model : jsstring;
  max_tokens : Z;
  temperature_tenths : Z
}.

(** One request, and what the outside world answers during it:
    [req.json()], [axios.get] on the videos endpoint for a video identifier,
    and [openai.chat.completions.create]. *)
Record services := {
  req_json : completion request_body;
  youtube_videos : jsstring -> completion videos_response;
  chat_completions_create : chat_request -> completion (option chat_completion)
}.

(* ================================================================= *)
(** ** POST *)

Section Handler.

Variable host_parser : bool -> jsstring -> bool.
Variable number_to_string : spec_float -> jsstring.
Variable world : services.

(** [`${v}`] for an optional string property. *)
Definition template_of (v : option jsstring) : jsstring :=
  match v with
  | Some s => s
  | None => js "undefined"
  end.

(** The inner [try] around the metadata call: the text assigned to
    [transcriptText], empty when nothing was assigned. *)
Definition video_details (videoId : jsstring) : completion jsstring :=
  try_catch
    (videoResponse <- youtube_videos world videoId ;;
     d <- match data videoResponse with
          | Some d => Normal d
          | None => Throw (TypeError_read_undefined "items")
          end ;;
     its <- match items d with
            | Some its => Normal its
            | None => Throw (TypeError_read_undefined "0")
            end ;;
     let videoData := match its with
                      | it :: _ => snippet it
                      | [] => None
                      end in
     match videoData with
     | Some sn =>
         match description sn with
         | Some (c :: desc) =>
             Normal (js "[Video title: " ++ template_of (title sn) ++ js "]"
                     ++ newline ++ newline ++ (c :: desc))
         | _ => Normal []
         end
     | None => Normal []
     end)%js
    (fun apiError => Normal []).

(** [errorMessages[locale].noTranscript] *)
Definition noTranscript_message (loc : jsval) : completion jsval :=
  (p <- lookup number_to_string errorMessages loc ;;
   match p with
   | Own bundle => Normal (VString (noTranscript bundle))
   | Inherited _ => Normal VUndefined
   | Missing => Throw (TypeError_read_undefined "noTranscript")
   end)%js.

(** "Trim if too long for OpenAI". *)
Definition trim_content (transcriptText : jsstring) : jsstring :=
  if (Str.length transcriptText >? 60000)%Z
  then Str.substring0 transcriptText 60000
  else transcriptText.

(** [systemPrompts[locale] || "You are a helpful video summarizer."] *)
Definition system_prompt (loc : jsval) : completion prompt_content :=
  (p <- lookup number_to_string systemPrompts loc ;;
   Normal (match p with
           | Own s => Text (or_else s (js "You are a helpful video summarizer."))
           | Inherited k => Member k
           | Missing => Text (js "You are a helpful video summarizer.")
           end))%js.

(** [userPrompts[locale] || "Please summarize this content: "], as the
    template literal prints it. *)
Definition user_prompt_prefix (loc : jsval) : completion jsstring :=
  (p <- lookup number_to_string userPrompts loc ;;
   Normal (match p with
           | Own s => or_else s (js "Please summarize this content: ")
           | Inherited k => inherited_to_string k
           | Missing => js "Please summarize this content: "
           end))%js.

(** The two messages of the prompt. *)
Definition build_messages (loc : jsval) (transcriptText : jsstring)
  : completion (list prompt_message) :=
  (system <- system_prompt loc ;;
   prefix <- user_prompt_prefix loc ;;
   Normal [ {| role := js "system"; prompt := system |};
            {| role := js "user"; prompt := Text (prefix ++ transcriptText) |} ])%js.

(** The argument of [openai.chat.completions.create]. *)
Definition chat_request_of (loc : jsval) (transcriptText : jsstring)
  : completion chat_request :=
  (messages <- build_messages loc transcriptText ;;
   Normal {| messages := messages;
             model := js "gpt-4o";
             max_tokens := 2000;
             temperature_tenths := 7 |})%js.

(** [completion?.choices?.[0]?.message?.content] *)
Definition completion_content (c : option chat_completion) : option jsstring :=
  match c with
  | Some c =>
      match choices c with
      | Some (ch0 :: _) =>
          match choice_message ch0 with
          | Some m => content m
          | None => None
          end
      | _ => None
      end
  | None => None
  end.

(** The [try] around the summarization call. *)
Definition summarize (loc : jsval) (transcriptText : jsstring) : completion response :=
  try_catch
    (request <- chat_request_of loc transcriptText ;;
     completion <- chat_completions_create world request ;;
     match completion_content completion with
     | Some (c :: s) => Normal (json_response 200 [(js "summary", VString (c :: s))])
     | _ => Normal (json_response 500 [(js "error", VString (js "Failed to generate summary"))])
     end)%js
    (fun openaiError =>
       Normal (json_response 500
                 [(js "error", VString (js "OpenAI failed: " ++ message openaiError))])).

(** The body of the outermost [try]. *)
Definition handle : completion response :=
  (b <- req_json world ;;
   let loc := match locale b with VUndefined => VString (js "ko") | l => l end in
   videoId <- extractYouTubeVideoId host_parser (videoUrl b) ;;
   if is_empty videoId then
     Normal (json_response 400
               [(js "error",
                 VString (js "Could not extract a valid YouTube video ID from the provided URL."));
                (js "receivedUrl", videoUrl b)])
   else
     transcriptText <- video_details videoId ;;
     if is_empty (Str.trim transcriptText) then
       msg <- noTranscript_message loc ;;
       Normal (json_response 400 [(js "error", msg)])
     else
       summarize loc (trim_content transcriptText))%js.

Definition POST : response :=
  match handle with
  | Normal r => r
  | Throw error =>
      json_response 500
        [(js "error", VString (or_else (message error) (js "An unexpected error occurred")))]
  end.

End Handler.

(* ================================================================= *)
(** ** The request configuration of the message bundles *)

Module I18n.

(** What the configuration callback returns. *)
Record config (M : Type) := { messages : M; locale : jsstring }.
Arguments messages {M} c.
Arguments locale {M} c.

(** [if (!locale) { locale = 'ko' }]: the tag is a string or is absent, and
    the empty string is falsy too. *)
Definition or_default (requested : option jsstring) : jsstring :=
  match requested with
  | Some (c :: l) => c :: l
  | _ => js "ko"
  end.

Section Config.

Variable M : Type.

(** [(await import(path)).default] *)
Variable import_default : jsstring -> completion M.

Definition getRequestConfig (requested : option jsstring) : completion (config M) :=
  let locale := or_default requested in
  (m <- import_default (js "../messages/" ++ locale ++ js ".json") ;;
   Normal {| messages := m; locale := locale |})%js.

End Config.

End I18n.

(* ================================================================= *)
(** ** The statements of the specification, in its own words *)

(** The alphabet of a video identifier. *)
Definition id_alphabet : jsstring :=
  js "ABCDEFGHIJKLMNOPQRSTUVWXYZabcdefghijklmnopqrstuvwxyz0123456789_-".

(** A VideoIdentifier: exactly 11 characters of the alphabet. *)
Definition is_video_identifier (s : jsstring) : Prop :=
  List.length s = 11%nat /\ Forall (fun c => In c id_alphabet) s.

(** [extractYouTubeVideoId] with the test for the example URL taken out. *)
Definition extract_without_shortcut (host_parser : bool -> jsstring -> bool) (url : jsval)
  : completion jsstring :=
  if falsy url || typeof_not_string url then Normal []
  else
    match url with
    | VString s => extract_general host_parser s
    | _ => Normal []
    end.

(** *** The four URL shapes *)

Inductive url_shape := ShortLink | Watch | OldPlayer | Embed.

(** What precedes the identifier in each shape. *)
Definition shape_marker (sh : url_shape) : jsstring :=
  match sh with
  | ShortLink => js "youtu.be/"
  | Watch => js "youtube.com/watch?v="
  | OldPlayer => js "youtube.com/v/"
  | Embed => js "youtube.com/embed/"
  end.

Inductive url_scheme := Http | Https.

Definition scheme_text (sc : url_scheme) : jsstring :=
  match sc with Http => js "http" | Https => js "https" end.

(** The characters of a host name: letters, digits, hyphen and dot. *)
Definition host_char (c : N) : bool :=
  Url.is_ascii_alpha c || Url.is_ascii_digit c || (c =? ch "-") || (c =? ch ".").

(** A string of shape [sh] for the identifier [id]: the marker of the shape
    after [before], then the identifier, then [trailing]. *)
Definition shaped_url (before : jsstring) (sh : url_shape) (id trailing : jsstring)
  : jsstring :=
  before ++ shape_marker sh ++ id ++ trailing.

(** What stands before the marker.  In a path shape it is any text that
    does not hold the marker of the shape: a scheme, the start of a host,
    or nothing.  In the watch shape it is the scheme [http] or [https],
    [://] and the start of the host name, such that the URL constructor
    accepts the host, which ends in [youtube.com]. *)
Inductive leads_to_marker (host_parser : bool -> jsstring -> bool)
  : url_shape -> jsstring -> Prop :=
| before_path (sh : url_shape) (before : jsstring) :
    sh <> Watch ->
    Str.includes before (shape_marker sh) = false ->
    leads_to_marker host_parser sh before
| before_watch (sc : url_scheme) (sub : jsstring) :
    forallb host_char sub = true ->
    host_parser false (sub ++ js "youtube.com") = true ->
    leads_to_marker host_parser Watch (scheme_text sc ++ js "://" ++ sub).

(** The character that opens trailing content: [?] or [#] after a path
    ([&] is cut there too), [&] or [#] after the [v] parameter. *)
Definition opens_trailing (sh : url_shape) (d : N) : bool :=
  match sh with
  | Watch => (d =? ch "&") || (d =? ch "#")
  | _ => (d =? ch "?") || (d =? ch "#") || (d =? ch "&")
  end.

(** Trailing query or fragment content: nothing, or anything that starts
    with such a character. *)
Definition trailing_content (sh : url_shape) (trailing : jsstring) : Prop :=
  trailing = [] \/ exists d r, trailing = d :: r /\ opens_trailing sh d = true.

(** The markers that the dispatch tests before the one of [sh]. *)
Definition earlier_markers (sh : url_shape) : list jsstring :=
  match sh with
  | ShortLink => []
  | Watch => [js "youtu.be/"]
  | OldPlayer => [js "youtu.be/"; js "youtube.com/watch"]
  | Embed => [js "youtu.be/"; js "youtube.com/watch"; js "youtube.com/v/"]
  end.

(** *** The last-resort scan *)

(** [w] is the window of eleven identifier characters of [s] that starts at
    index [i]. *)
Definition window_at (s : jsstring) (i : nat) (w : jsstring) : Prop :=
  w = firstn 11 (skipn i s) /\ is_video_identifier w.

(** The maximal runs of identifier characters of a string, from the left. *)
Definition identifier_runs (s : jsstring) : list jsstring :=
  filter (fun r => negb (is_empty r))
         (Str.split_class (fun c => negb (Regex.id_class c)) s).

(** The first contiguous run of exactly eleven identifier characters. *)
Definition first_run_of_eleven (s : jsstring) : option jsstring :=
  find (fun r => (List.length r =? 11)%nat) (identifier_runs s).

(** The string has none of the four shapes. *)
Definition no_marker (s : jsstring) : Prop :=
  Str.includes s (js "youtu.be/") = false /\
  Str.includes s (js "youtube.com/watch") = false /\
  Str.includes s (js "youtube.com/v/") = false /\
  Str.includes s (js "youtube.com/embed/") = false.

(** *** The handler *)

(** The locale of a request: its tag, or the default. *)
Definition request_locale (b : request_body) : jsval :=
  match locale b with VUndefined => VString (js "ko") | l => l end.

(** A key that names neither of the two locales nor a member that every
    object inherits. *)
Definition unknown_key (k : jsstring) : Prop :=
  k <> js "ko" /\ k <> js "en" /\ ~ In k object_prototype_keys.

(** The description the metadata answer holds for the first item, if it
    holds one. *)
Definition response_description (r : videos_response) : option jsstring :=
  match data r with
  | Some d =>
      match items d with
      | Some (it :: _) =>
          match snippet it with
          | Some sn => description sn
          | None => None
          end
      | _ => None
      end
  | None => None
  end.

(** The metadata call failed, or its answer has no usable description: the
    description is missing or is the empty string. *)
Inductive metadata_unusable : completion videos_response -> Prop :=
| call_failed (e : jserror) : metadata_unusable (Throw e)
| description_missing (r : videos_response) :
    response_description r = None -> metadata_unusable (Normal r)
| description_empty (r : videos_response) :
    response_description r = Some [] -> metadata_unusable (Normal r).

(** The request tag names one of the two locales of the message table;
    a request without a tag has the default one. *)
Inductive locale_bundle : jsval -> error_bundle -> Prop :=
| locale_default bundle :
    own_property errorMessages (js "ko") = Some bundle -> locale_bundle VUndefined bundle
| locale_ko bundle :
    own_property errorMessages (js "ko") = Some bundle ->
    locale_bundle (VString (js "ko")) bundle
| locale_en bundle :
    own_property errorMessages (js "en") = Some bundle ->
    locale_bundle (VString (js "en")) bundle.

(** The answer of the summarization call lacks the expected text: the
    completion, its choices, the first choice, its message or the content
    is missing, or the content is the empty string. *)
Inductive lacks_text : option chat_completion -> Prop :=
| completion_missing : lacks_text None
| choices_missing : lacks_text (Some {| choices := None |})
| choices_empty : lacks_text (Some {| choices := Some [] |})
| message_missing rest :
    lacks_text (Some {| choices := Some ({| choice_message := None |} :: rest) |})
| content_missing rest :
    lacks_text (Some {| choices :=
                          Some ({| choice_message := Some {| content := None |} |} :: rest) |})
| content_empty rest :
    lacks_text (Some {| choices :=
                          Some ({| choice_message := Some {| content := Some [] |} |} :: rest) |}).

(** A value that a JSON text carries as it is: no [undefined] in it, and
    every number finite and not minus zero. *)
Fixpoint json_exact (v : jsval) : bool :=
  match v with
  | VUndefined => false
  | VNull | VBool _ | VString _ => true
  | VNumber (S754_finite _ _ _) => true
  | VNumber (S754_zero s) => negb s
  | VNumber _ => false
  | VArray items => forallb json_exact items
  | VObject fields => forallb (fun kv => json_exact (snd kv)) fields
  end.

(** The message of the answer when no identifier was found. *)
Definition no_identifier_message : jsstring :=
  js "Could not extract a valid YouTube video ID from the provided URL.".

(** The body [{ error: msg }]. *)
Definition error_body (msg : jsstring) : jsval := VObject [(js "error", VString msg)].

(** The snippet the metadata answer holds for the first item. *)
Definition response_snippet (r : videos_response) : option video_snippet :=
  match data r with
  | Some d =>
      match items d with
      | Some (it :: _) => snippet it
      | _ => None
      end
  | None => None
  end.

(** The ContentSource synthesized from a title and a description. *)
Definition content_source (t : option jsstring) (d : jsstring) : jsstring :=
  js "[Video title: " ++ template_of t ++ js "]" ++ newline ++ newline ++ d.

(** [r] occurs in [s] as a contiguous substring. *)
Definition occurs_in (r s : jsstring) : Prop := exists a b, s = a ++ r ++ b.

(** *** Example requests *)

(** A [Number::toString] for running the model: it prints the numbers that
    are not finite, the zeros and the integers below 2^53 in magnitude as
    the language does, and of any other number the integer part of the
    magnitude; the examples hold no such number. *)
Fixpoint decimal_digits (fuel : nat) (n : N) (acc : jsstring) : jsstring :=
  match fuel with
  | O => acc
  | S f =>
      let acc' := (ch "0" + n mod 10) :: acc in
      if n <? 10 then acc' else decimal_digits f (n / 10) acc'
  end.

Definition integer_to_string (x : spec_float) : jsstring :=
  match x with
  | S754_nan => js "NaN"
  | S754_infinity sg => (if sg then js "-" else []) ++ js "Infinity"
  | S754_zero _ => js "0"
  | S754_finite sg m e =>
      let n := match e with
               | Z0 => Npos m
               | Zpos p => Npos m * 2 ^ Npos p
               | Zneg p => Npos m / 2 ^ Npos p
               end in
      (if sg then js "-" else []) ++ decimal_digits 400 n []
  end.

(** A request body with a string [videoUrl]. *)
Definition example_request (url : jsstring) (loc : jsval)
  : completion request_body :=
  Normal {| videoUrl := VString url; locale := loc |}.

(** A metadata endpoint that refuses every call. *)
Definition metadata_down (videoId : jsstring) : completion videos_response :=
  Throw {| message := js "Request failed with status code 403" |}.

(** A metadata endpoint that answers one item with this title and
    description. *)
Definition metadata_with (t d videoId : jsstring) : completion videos_response :=
  Normal {| data := Some {| items := Some
              [ {| snippet := Some {| title := Some t; description := Some d |} |} ] |} |}.

(** A summarization service that refuses every call. *)
Definition rate_limit_error : jserror := {| message := js "429 Rate limit reached" |}.

Definition summarizer_down (r : chat_request) : completion (option chat_completion) :=
  Throw rate_limit_error.

Definition example_world (url : jsstring) (loc : jsval)
           (metadata : jsstring -> completion videos_response) : services :=
  {| req_json := example_request url loc;
     youtube_videos := metadata;
     chat_completions_create := summarizer_down |}.

(** A request for a video that is described by the word "hello". *)
Definition hello_body : request_body :=
  {| videoUrl := VString (js "https://youtu.be/dQw4w9WgXcQ"); locale := VUndefined |}.

Definition hello_world : services :=
  example_world (js "https://youtu.be/dQw4w9WgXcQ") VUndefined
    (metadata_with (js "Title") (js "hello")).

Definition hello_text : jsstring :=
  js "[Video title: Title]" ++ newline ++ newline ++ js "hello".

(** A request without [videoUrl]. *)
Definition no_url_world : services :=
  {| req_json := Normal {| videoUrl := VUndefined; locale := VUndefined |};
     youtube_videos := metadata_down;
     chat_completions_create := summarizer_down |}.

(** The same request as [hello_world], with a summarization service that
    answers no choice. *)
Definition silent_completion : option chat_completion := Some {| choices := Some [] |}.

Definition silent_world : services :=
  {| req_json := Normal hello_body;
     youtube_videos := metadata_with (js "Title") (js "hello");
     chat_completions_create := fun _ => Normal silent_completion |}.

(** A locale that is an object with a property [toString]. *)
Definition odd_locale : jsval := VObject [(js "toString", VNull)].

(** A chat completion with one choice, of this text. *)
Definition completion_of (text : jsstring) : option chat_completion :=
  Some {| choices := Some [ {| choice_message := Some {| content := Some text |} |} ] |}.

(** A summarization service that answers this text. *)
Definition summarizer_with (text : jsstring) (r : chat_request)
  : completion (option chat_completion) :=
  Normal (completion_of text).

(** The same request, with a summarization service that answers. *)
Definition summarized_world : services :=
  {| req_json := Normal hello_body;
     youtube_videos := metadata_with (js "Title") (js "hello");
     chat_completions_create := summarizer_with (js "A greeting.") |}.

(** A request whose body is not JSON. *)
Definition malformed_error : jserror := {| message := js "Unexpected end of JSON input" |}.

Definition malformed_world : services :=
  {| req_json := Throw malformed_error;
     youtube_videos := metadata_down;
     chat_completions_create := summarizer_down |}.

(** A metadata endpoint that answers for video identifiers only. *)
Definition metadata_for_identifiers (videoId : jsstring) : completion videos_response :=
  if Regex.test_id videoId then metadata_with (js "Title") (js "hello") videoId
  else metadata_down videoId.

Definition careful_world : services :=
  {| req_json := Normal hello_body;
     youtube_videos := metadata_for_identifiers;
     chat_completions_create := summarizer_down |}.

(** A video without a title, described by three spaces. *)
Definition blank_snippet : video_snippet :=
  {| title := None; description := Some (js "   ") |}.

Definition blank_response : videos_response :=
  {| data := Some {| items := Some [ {| snippet := Some blank_snippet |} ] |} |}.

Definition blank_world : services :=
  {| req_json := Normal hello_body;
     youtube_videos := fun _ => Normal blank_response;
     chat_completions_create := summarizer_down |}.

(** The configuration of the default locale. *)
Definition ko_config : I18n.config jsstring :=
  {| I18n.messages := js "ko bundle"; I18n.locale := js "ko" |}.

(** A URL constructor that accepts no host. *)
Definition no_host (isOpaque : bool) (h : jsstring) : bool := false.

(** Message bundles for the two locales, and no other file. *)
Definition bundle_files (path : jsstring) : completion jsstring :=
  if jsstring_eqb path (js "../messages/ko.json") then Normal (js "ko bundle")
  else if jsstring_eqb path (js "../messages/en.json") then Normal (js "en bundle")
  else Throw {| message := js "Cannot find module" |}.

(* ================================================================= *)
(** ** Auxiliary notions of the proofs *)

(** The request that is built for a locale whose property key is [k]. *)
Definition request_for_key (k text : jsstring) : chat_request :=
  {| messages :=
       [ {| role := js "system";
            prompt := match get_property systemPrompts k with
                      | Own s => Text (or_else s (js "You are a helpful video summarizer."))
                      | Inherited m => Member m
                      | Missing => Text (js "You are a helpful video summarizer.")
                      end |};
         {| role := js "user";
            prompt := Text (match get_property userPrompts k with
                            | Own s => or_else s (js "Please summarize this content: ")
                            | Inherited m => inherited_to_string m
                            | Missing => js "Please summarize this content: "
                            end ++ text) |} ];
     model := js "gpt-4o";
     max_tokens := 2000;
     temperature_tenths := 7 |}.

(** The four markers of the dispatch, in the order of the tests. *)
Definition dispatch_markers : list jsstring :=
  [js "youtu.be/"; js "youtube.com/watch"; js "youtube.com/v/"; js "youtube.com/embed/"].

(** The first character of [m] occurs nowhere else in [m]. *)
Definition head_unique (m : jsstring) : bool :=
  match m with
  | [] => false
  | c :: r => negb (existsb (N.eqb c) r)
  end.

Definition mem (c : N) (l : jsstring) : bool := existsb (N.eqb c) l.

(** No occurrence of [m] starts inside [pre] in [pre ++ m]. *)
Fixpoint first_at_end (m pre : jsstring) : bool :=
  match pre with
  | [] => true
  | _ :: p => negb (Str.starts_with m (pre ++ m)) && first_at_end m p
  end.

(** A marker has no delimiter, and a character outside the identifier
    class. *)
Definition no_delimiter (m : jsstring) : bool :=
  forallb (fun c => negb (Regex.delimiter_class c)) m.
Definition has_non_id (m : jsstring) : bool :=
  existsb (fun c => negb (Regex.id_class c)) m.

(** What may follow an identifier in a path: nothing, or a delimiter. *)
Definition ends_id (tl : jsstring) : Prop :=
  tl = [] \/ exists d r, tl = d :: r /\ Regex.delimiter_class d = true.

(** Printable ASCII, the space excluded. *)
Definition plain_ascii (c : N) : bool := (0x20 <? c) && (c <? 0x7F).

(** The characters of [v=<id>]. *)
Definition param_char (c : N) : bool := Regex.id_class c || (c =? ch "=").

(** What preprocessing leaves of the end of the input. *)
Definition preprocess_tail (tl : jsstring) : jsstring :=
  filter (fun c => negb (Url.is_tab_or_newline c))
         (Str.drop_while_end Url.is_c0_control_or_space tl).

(** What may follow the first parameter in a query. *)
Definition amp_tail (q : jsstring) : Prop := q = [] \/ exists r, q = ch "&" :: r.

Definition watch_trailing (tl : jsstring) : Prop :=
  tl = [] \/ exists d r, tl = d :: r /\ (d = ch "&" \/ d = ch "#").

(** Characters that percent-encoding of the query leaves alone. *)
Definition query_safe (c : N) : bool := (c <? 0x80) && negb (Url.in_query_set true c).

(* ================================================================= *)
(** ** Basic facts *)

Lemma jsstring_eqb_eq (a b : jsstring) : jsstring_eqb a b = true <-> a = b.
Proof.
  revert b; induction a as [|x a IH]; intros [|y b]; simpl; split; intro H;
    try reflexivity; try discriminate.
  - apply andb_true_iff in H as [Hxy Hab].
    apply N.eqb_eq in Hxy. apply IH in Hab. congruence.
  - injection H as -> ->. rewrite N.eqb_refl. simpl. apply IH. reflexivity.
Qed.

Lemma jsstring_eqb_refl (a : jsstring) : jsstring_eqb a a = true.
Proof. apply jsstring_eqb_eq. reflexivity. Qed.

(** Every code unit below 128 is met by a check over the 128 of them. *)
Lemma below_128_in_seq (c : N) : c < 128 -> In c (map N.of_nat (seq 0 128)).
Proof.
  intro H. apply in_map_iff. exists (N.to_nat c). split.
  - apply N2Nat.id.
  - apply in_seq. lia.
Qed.

Lemma mem_In (c : N) (l : jsstring) : mem c l = true <-> In c l.
Proof.
  unfold mem. rewrite existsb_exists. split.
  - intros [x [Hx He]]. apply N.eqb_eq in He. subst. exact Hx.
  - intro H. exists c. split; [exact H | apply N.eqb_refl].
Qed.

Lemma id_class_below_128 (c : N) : Regex.id_class c = true -> c < 128.
Proof.
  unfold Regex.id_class, ch. simpl. intro H.
  repeat (apply orb_true_iff in H as [H|H]);
    try (apply andb_true_iff in H as [_ H]; apply N.leb_le in H; lia);
    apply N.eqb_eq in H; lia.
Qed.

Lemma id_class_table :
  forallb (fun d => implb (Regex.id_class d) (mem d id_alphabet))
    (map N.of_nat (seq 0 128)) = true.
Proof. vm_compute. reflexivity. Qed.

Lemma id_alphabet_in_class : forallb Regex.id_class id_alphabet = true.
Proof. vm_compute. reflexivity. Qed.

(** The character class of the two expressions is the alphabet. *)
Lemma id_class_alphabet (c : N) : Regex.id_class c = true <-> In c id_alphabet.
Proof.
  split.
  - intro H. pose proof (id_class_below_128 c H) as Hlt.
    pose proof (proj1 (forallb_forall _ _) id_class_table c (below_128_in_seq c Hlt)) as Hc.
    cbv beta in Hc. rewrite H in Hc. apply mem_In.
    destruct (mem c id_alphabet); [reflexivity | discriminate Hc].
  - intro H.
    exact (proj1 (forallb_forall _ _) id_alphabet_in_class c H).
Qed.

Lemma test_id_identifier (s : jsstring) :
  Regex.test_id s = true <-> is_video_identifier s.
Proof.
  unfold Regex.test_id, is_video_identifier.
  rewrite andb_true_iff, Nat.eqb_eq, forallb_forall, Forall_forall.
  split; intros [Hl Hc]; split; try exact Hl; intros c Hin;
    apply id_class_alphabet; apply Hc; exact Hin.
Qed.

Section ExtractorFacts.

Variable host_parser : bool -> jsstring -> bool.

(** The outer [try] of the extractor always completes. *)
Lemma dispatch_caught (url : jsstring) :
  exists videoId,
    try_catch (dispatch host_parser url) (fun _ => Normal []) = Normal videoId.
Proof.
  destruct (dispatch host_parser url) as [v|e]; simpl; eauto.
Qed.

Lemma extract_general_validates (url : jsstring) :
  exists videoId, extract_general host_parser url = Normal (validate videoId).
Proof.
  unfold extract_general.
  destruct (dispatch_caught url) as [v Hv]. rewrite Hv. simpl. eauto.
Qed.

Lemma validate_cases (videoId : jsstring) :
  validate videoId = [] \/
  (validate videoId = videoId /\ Regex.test_id videoId = true).
Proof.
  unfold validate.
  destruct (negb (is_empty videoId) && Regex.test_id videoId) eqn:E; auto.
  apply andb_true_iff in E as [_ E]. auto.
Qed.

(** A valid candidate passes the validation unchanged. *)
Lemma validate_identifier (videoId : jsstring) :
  Regex.test_id videoId = true -> validate videoId = videoId.
Proof.
  intro H. unfold validate. rewrite H.
  destruct videoId; [discriminate H | reflexivity].
Qed.

Lemma extract_string (s : jsstring) :
  extractYouTubeVideoId host_parser (VString s) =
  match s with
  | [] => Normal []
  | _ => if jsstring_eqb s test_url then Normal (js "QiZ62yswdPw")
         else extract_general host_parser s
  end.
Proof. destruct s; reflexivity. Qed.

Lemma extract_not_string (v : jsval) :
  typeof_not_string v = true -> extractYouTubeVideoId host_parser v = Normal [].
Proof.
  intro H. unfold extractYouTubeVideoId. rewrite H, orb_true_r. reflexivity.
Qed.

Lemma extract_general_test_url :
  extract_general host_parser test_url = Normal (js "QiZ62yswdPw").
Proof. vm_compute. reflexivity. Qed.

End ExtractorFacts.

(* ================================================================= *)
(** ** The last-resort expression finds the leftmost window *)

Lemma eleven_here_window (s : jsstring) :
  Regex.eleven_here s = true <-> is_video_identifier (firstn 11 s).
Proof.
  unfold Regex.eleven_here. rewrite <- test_id_identifier. unfold Regex.test_id.
  reflexivity.
Qed.

Lemma match_id_cons (c : N) (r : jsstring) :
  Regex.match_id (c :: r) =
  if Regex.eleven_here (c :: r) then Some (firstn 11 (c :: r)) else Regex.match_id r.
Proof. reflexivity. Qed.

Lemma window_at_head (s w : jsstring) :
  window_at s 0 w -> Regex.eleven_here s = true.
Proof.
  intros [Hf Hid]. change (skipn 0 s) with s in Hf. subst w.
  apply eleven_here_window. exact Hid.
Qed.

Lemma match_id_leftmost (s : jsstring) :
  match Regex.match_id s with
  | Some w => exists i, window_at s i w /\ forall j w', window_at s j w' -> (i <= j)%nat
  | None => forall i w, ~ window_at s i w
  end.
Proof.
  induction s as [|c r IH].
  - change (Regex.match_id []) with (@None jsstring).
    intros i w [Hw [Hl _]]. subst w. destruct i; discriminate Hl.
  - rewrite match_id_cons. destruct (Regex.eleven_here (c :: r)) eqn:E.
    + exists 0%nat. split.
      * split; [reflexivity | apply eleven_here_window; exact E].
      * intros; lia.
    + destruct (Regex.match_id r) as [w|].
      * destruct IH as [i [Hw Hmin]]. exists (S i). split; [exact Hw|].
        intros [|j] w' Hw'.
        -- apply window_at_head in Hw'. congruence.
        -- apply Hmin in Hw'. lia.
      * intros [|i] w Hw.
        -- apply window_at_head in Hw. congruence.
        -- exact (IH i w Hw).
Qed.

Lemma match_id_valid (s w : jsstring) :
  Regex.match_id s = Some w -> Regex.test_id w = true.
Proof.
  intro H. pose proof (match_id_leftmost s) as L. rewrite H in L.
  destruct L as [i [[_ Hid] _]]. apply test_id_identifier. exact Hid.
Qed.

(* ================================================================= *)
(** ** Splitting at a marker, and the URL constructor on the watch shape *)

Lemma starts_with_app_self (m rest : jsstring) : Str.starts_with m (m ++ rest) = true.
Proof. induction m as [|c m IH]; simpl; [reflexivity|]. rewrite N.eqb_refl. exact IH. Qed.

Lemma starts_with_app_long (m x y : jsstring) :
  (List.length m <= List.length x)%nat ->
  Str.starts_with m (x ++ y) = Str.starts_with m x.
Proof.
  revert x. induction m as [|c m IH]; intros [|d x] H; simpl in *; try reflexivity; try lia.
  destruct (c =? d); simpl; [apply IH; lia | reflexivity].
Qed.

Lemma includes_app (pre m rest : jsstring) : Str.includes (pre ++ m ++ rest) m = true.
Proof.
  induction pre as [|c pre IH].
  - simpl. destruct (m ++ rest) eqn:E; simpl; rewrite <- E, starts_with_app_self; reflexivity.
  - simpl. rewrite IH. apply orb_true_r.
Qed.

Lemma split_from_skip (m x rest : jsstring) :
  Str.split_from m (List.length x) (x ++ rest) = Str.split_from m 0 rest.
Proof.
  induction x as [|c x IH]; simpl; [reflexivity|].
  exact IH.
Qed.

Lemma split_from_nonempty (m : jsstring) (k : nat) (s : jsstring) :
  Str.split_from m k s <> [].
Proof.
  revert k. induction s as [|c s IH]; intro k; simpl; [discriminate|].
  destruct k; [|apply IH].
  destruct (Str.starts_with m (c :: s)); [discriminate|].
  specialize (IH 0%nat). destruct (Str.split_from m 0 s); [contradiction|discriminate].
Qed.

Lemma split_from_0 (m : jsstring) (c : N) (s : jsstring) :
  Str.split_from m 0 (c :: s) =
  if Str.starts_with m (c :: s)
  then [] :: Str.split_from m (Nat.pred (List.length m)) s
  else Str.cons_head c (Str.split_from m 0 s).
Proof. reflexivity. Qed.

Lemma split_after_prefix (m pre rest : jsstring) :
  m <> [] -> first_at_end m pre = true ->
  Str.split (pre ++ m ++ rest) m = pre :: Str.split rest m.
Proof.
  intros Hm. unfold Str.split. induction pre as [|c pre IH]; intro H.
  - destruct m as [|d m]; [congruence|].
    pose proof (starts_with_app_self (d :: m) rest) as E.
    rewrite app_nil_l. rewrite <- app_comm_cons in *.
    rewrite split_from_0, E.
    change (Nat.pred (List.length (d :: m))) with (List.length m).
    rewrite split_from_skip. reflexivity.
  - simpl in H. apply andb_true_iff in H as [H1 H2]. apply negb_true_iff in H1.
    rewrite <- app_comm_cons, split_from_0.
    assert (E : Str.starts_with m (c :: pre ++ m ++ rest) = false).
    { rewrite app_comm_cons, app_assoc. rewrite starts_with_app_long.
      - rewrite <- app_comm_cons. exact H1.
      - rewrite length_app. simpl. lia. }
    rewrite E, (IH H2). reflexivity.
Qed.

Lemma starts_with_in_id_run (m x tl : jsstring) :
  no_delimiter m = true -> has_non_id m = true ->
  forallb Regex.id_class x = true -> ends_id tl ->
  Str.starts_with m (x ++ tl) = false.
Proof.
  revert x. induction m as [|c m IH]; intros x Hd Hn Hx Htl; [discriminate Hn|].
  simpl in Hd. apply andb_true_iff in Hd as [Hc Hd]. apply negb_true_iff in Hc.
  destruct x as [|y x].
  - destruct Htl as [->|[d [r [-> Hdel]]]]; [reflexivity|].
    simpl. destruct (c =? d) eqn:E; [|reflexivity].
    apply N.eqb_eq in E. subst d. congruence.
  - simpl in Hx. apply andb_true_iff in Hx as [Hy Hx].
    simpl. destruct (c =? y) eqn:E; [|reflexivity]. simpl.
    apply N.eqb_eq in E. subst y.
    simpl in Hn. rewrite Hy in Hn. simpl in Hn.
    apply IH; assumption.
Qed.

Lemma hd_cons_head (c : N) (ps : list jsstring) :
  hd [] (Str.cons_head c ps) = c :: hd [] ps.
Proof. destruct ps; reflexivity. Qed.

Lemma split_from_id_run (m x tl : jsstring) :
  no_delimiter m = true -> has_non_id m = true ->
  forallb Regex.id_class x = true -> ends_id tl ->
  hd [] (Str.split_from m 0 (x ++ tl)) = x ++ hd [] (Str.split_from m 0 tl).
Proof.
  intros Hd Hn Hx Htl. induction x as [|y x IH]; [reflexivity|].
  pose proof (starts_with_in_id_run m (y :: x) tl Hd Hn Hx Htl) as E.
  rewrite <- app_comm_cons in *. rewrite split_from_0, E.
  rewrite hd_cons_head. simpl in Hx. apply andb_true_iff in Hx as [_ Hx].
  rewrite (IH Hx). reflexivity.
Qed.

Lemma split_from_tail (m tl : jsstring) :
  no_delimiter m = true -> has_non_id m = true -> ends_id tl ->
  ends_id (hd [] (Str.split_from m 0 tl)).
Proof.
  intros Hd Hn Htl. destruct Htl as [->|[d [r [-> Hdel]]]]; [left; reflexivity|].
  right. rewrite split_from_0.
  assert (E : Str.starts_with m (d :: r) = false).
  { apply (starts_with_in_id_run m [] (d :: r) Hd Hn eq_refl). right. eauto. }
  rewrite E, hd_cons_head. eauto.
Qed.

Lemma id_class_not_delimiter (c : N) :
  Regex.id_class c = true -> Regex.delimiter_class c = false.
Proof.
  intro H. pose proof (id_class_below_128 c H) as Hlt.
  pose proof (proj1 (forallb_forall _ _)
                (eq_refl : forallb (fun d => implb (Regex.id_class d) (negb (Regex.delimiter_class d)))
                             (map N.of_nat (seq 0 128)) = true) c (below_128_in_seq c Hlt)) as Hc.
  cbv beta in Hc. rewrite H in Hc. destruct (Regex.delimiter_class c); [discriminate Hc|reflexivity].
Qed.

Lemma split_class_id_run (x tl : jsstring) :
  forallb Regex.id_class x = true -> ends_id tl ->
  hd [] (Str.split_class Regex.delimiter_class (x ++ tl)) = x.
Proof.
  intros Hx Htl. induction x as [|y x IH].
  - destruct Htl as [->|[d [r [-> Hdel]]]]; [reflexivity|].
    simpl. rewrite Hdel. reflexivity.
  - simpl in Hx. apply andb_true_iff in Hx as [Hy Hx].
    simpl. rewrite (id_class_not_delimiter y Hy), hd_cons_head, (IH Hx). reflexivity.
Qed.

Lemma after_marker_path (pre m id tl : jsstring) :
  m <> [] -> first_at_end m pre = true ->
  no_delimiter m = true -> has_non_id m = true ->
  forallb Regex.id_class id = true -> ends_id tl ->
  after_marker (pre ++ m ++ id ++ tl) m [] = id.
Proof.
  intros Hm Hpre Hd Hn Hid Htl. unfold after_marker.
  rewrite (split_after_prefix m pre (id ++ tl) Hm Hpre).
  pose proof (split_from_id_run m id tl Hd Hn Hid Htl) as E.
  pose proof (split_from_tail m tl Hd Hn Htl) as T.
  unfold Str.split.
  destruct (Str.split_from m 0 (id ++ tl)) as [|p1 ps] eqn:S.
  - exfalso. exact (split_from_nonempty m 0 (id ++ tl) S).
  - simpl in E. rewrite E. apply split_class_id_run; assumption.
Qed.

Lemma to_scalar_values_plain (x y : jsstring) :
  forallb plain_ascii x = true ->
  Unicode.to_scalar_values (x ++ y) = x ++ Unicode.to_scalar_values y.
Proof.
  intro H. induction x as [|c x IH]; [reflexivity|].
  simpl in H. apply andb_true_iff in H as [Hc Hx].
  unfold plain_ascii in Hc. apply andb_true_iff in Hc as [H1 H2].
  apply N.ltb_lt in H1, H2.
  rewrite <- app_comm_cons.
  change (Unicode.to_scalar_values (c :: x ++ y))
    with (if Unicode.is_high_surrogate c then
          match x ++ y with
          | d :: r' =>
              if Unicode.is_low_surrogate d then
                (0x10000 + (c - 0xD800) * 1024 + (d - 0xDC00)) :: Unicode.to_scalar_values r'
              else 0xFFFD :: Unicode.to_scalar_values (x ++ y)
          | [] => [0xFFFD]
          end
        else if Unicode.is_low_surrogate c then 0xFFFD :: Unicode.to_scalar_values (x ++ y)
        else c :: Unicode.to_scalar_values (x ++ y)).
  assert (Hh : Unicode.is_high_surrogate c = false).
  { unfold Unicode.is_high_surrogate. apply andb_false_iff. left. apply N.leb_gt. lia. }
  assert (Hl : Unicode.is_low_surrogate c = false).
  { unfold Unicode.is_low_surrogate. apply andb_false_iff. left. apply N.leb_gt. lia. }
  rewrite Hh, Hl, (IH Hx). reflexivity.
Qed.


Lemma ascii_table (P Q : N -> bool) :
  (forall c, P c = true -> c < 128) ->
  forallb (fun d => implb (P d) (Q d)) (map N.of_nat (seq 0 128)) = true ->
  forall c, P c = true -> Q c = true.
Proof.
  intros Hlt Htab c Hc.
  pose proof (proj1 (forallb_forall _ _) Htab c (below_128_in_seq c (Hlt c Hc))) as H.
  cbv beta in H. rewrite Hc in H. exact H.
Qed.

Lemma forallb_impl (P Q : N -> bool) (x : jsstring) :
  (forall c, P c = true -> Q c = true) -> forallb P x = true -> forallb Q x = true.
Proof.
  intros H Hx. rewrite forallb_forall in *. intros c Hc. apply H, Hx, Hc.
Qed.

Lemma param_char_below_128 (c : N) : param_char c = true -> c < 128.
Proof.
  unfold param_char. intro H. apply orb_true_iff in H as [H|H].
  - apply id_class_below_128, H.
  - apply N.eqb_eq in H. subst c. reflexivity.
Qed.

Lemma param_char_plain (c : N) : param_char c = true -> plain_ascii c = true.
Proof. apply (ascii_table _ _ param_char_below_128). vm_compute. reflexivity. Qed.

Lemma id_class_param (c : N) : Regex.id_class c = true -> param_char c = true.
Proof. unfold param_char. intros ->. reflexivity. Qed.

Lemma drop_while_end_keep (p : N -> bool) (x y : jsstring) :
  forallb (fun c => negb (p c)) x = true ->
  Str.drop_while_end p (x ++ y) = x ++ Str.drop_while_end p y.
Proof.
  intro H. induction x as [|c x IH]; [reflexivity|].
  simpl in H. apply andb_true_iff in H as [Hc Hx]. apply negb_true_iff in Hc.
  rewrite <- app_comm_cons. simpl. rewrite (IH Hx), Hc.
  destruct (x ++ Str.drop_while_end p y); reflexivity.
Qed.

Lemma filter_keep (f : N -> bool) (x y : jsstring) :
  forallb f x = true -> filter f (x ++ y) = x ++ filter f y.
Proof.
  intro H. rewrite filter_app. f_equal.
  induction x as [|c x IH]; [reflexivity|].
  simpl in H. apply andb_true_iff in H as [Hc Hx]. simpl. rewrite Hc, (IH Hx). reflexivity.
Qed.

Lemma plain_below_128 (c : N) : plain_ascii c = true -> c < 128.
Proof.
  unfold plain_ascii. intro H. apply andb_true_iff in H as [_ H]. apply N.ltb_lt in H. lia.
Qed.

Lemma plain_not_c0 (c : N) : plain_ascii c = true -> negb (Url.is_c0_control_or_space c) = true.
Proof.
  apply (ascii_table plain_ascii (fun d => negb (Url.is_c0_control_or_space d)) plain_below_128).
  vm_compute. reflexivity.
Qed.

Lemma plain_not_tab (c : N) : plain_ascii c = true -> negb (Url.is_tab_or_newline c) = true.
Proof.
  apply (ascii_table plain_ascii (fun d => negb (Url.is_tab_or_newline d)) plain_below_128).
  vm_compute. reflexivity.
Qed.

Lemma preprocess_plain (x y : jsstring) :
  x <> [] -> forallb plain_ascii x = true ->
  Url.preprocess (x ++ y) = x ++ preprocess_tail y.
Proof.
  intros Hne Hx. unfold Url.preprocess, preprocess_tail.
  assert (E : Str.drop_while Url.is_c0_control_or_space (x ++ y) = x ++ y).
  { destruct x as [|c x]; [congruence|]. simpl in Hx.
    apply andb_true_iff in Hx as [Hc _]. apply plain_not_c0, negb_true_iff in Hc.
    simpl. rewrite Hc. reflexivity. }
  rewrite E, drop_while_end_keep, filter_keep; [reflexivity| |].
  - exact (forallb_impl _ _ x plain_not_tab Hx).
  - exact (forallb_impl _ _ x plain_not_c0 Hx).
Qed.

Lemma to_scalar_values_cons (d : N) (r : jsstring) :
  plain_ascii d = true ->
  Unicode.to_scalar_values (d :: r) = d :: Unicode.to_scalar_values r.
Proof.
  intro Hd. apply (to_scalar_values_plain [d] r). cbn [forallb]. rewrite Hd. reflexivity.
Qed.

Lemma drop_while_end_cons (p : N -> bool) (d : N) (y : jsstring) :
  p d = false -> Str.drop_while_end p (d :: y) = d :: Str.drop_while_end p y.
Proof.
  intro Hd. apply (drop_while_end_keep p [d] y). cbn [forallb]. rewrite Hd. reflexivity.
Qed.

(** The head of a tail that starts with a plain character survives the
    conversion to scalar values and the preprocessing. *)
Lemma tail_head (tl : jsstring) :
  match tl with
  | [] => preprocess_tail (Unicode.to_scalar_values tl) = []
  | d :: _ => plain_ascii d = true ->
              exists r, preprocess_tail (Unicode.to_scalar_values tl) = d :: r
  end.
Proof.
  destruct tl as [|d r]; [reflexivity|]. intro Hd.
  rewrite (to_scalar_values_cons d r Hd). unfold preprocess_tail.
  rewrite drop_while_end_cons by (apply negb_true_iff, plain_not_c0, Hd).
  cbn [filter]. rewrite (plain_not_tab d Hd). eauto.
Qed.

Lemma break_keep (p : N -> bool) (x y : jsstring) :
  forallb (fun c => negb (p c)) x = true ->
  Str.break p (x ++ y) = (x ++ fst (Str.break p y), snd (Str.break p y)).
Proof.
  intro H. induction x as [|c x IH].
  - rewrite app_nil_l. destruct (Str.break p y); reflexivity.
  - cbn [forallb] in H. apply andb_true_iff in H as [Hc Hx]. apply negb_true_iff in Hc.
    rewrite <- app_comm_cons. cbn [Str.break]. rewrite Hc, (IH Hx). reflexivity.
Qed.

Lemma fragment_cut (tl : jsstring) :
  watch_trailing tl ->
  amp_tail (fst (Str.break (fun d => d =? ch "#")
                   (preprocess_tail (Unicode.to_scalar_values tl)))).
Proof.
  intros [->|[d [r [-> Hd]]]]; [left; reflexivity|].
  pose proof (tail_head (d :: r)) as T. cbv beta iota in T.
  destruct Hd as [->| ->].
  - destruct (T eq_refl) as [r' ->]. right.
    cbn [Str.break]. change (ch "&" =? ch "#") with false. cbv iota.
    destruct (Str.break (fun d => d =? ch "#") r'). cbn [fst]. eauto.
  - destruct (T eq_refl) as [r' ->]. left. reflexivity.
Qed.

Lemma percent_encode_cons (c : N) (q : jsstring) :
  query_safe c = true ->
  Url.percent_encode_query true (c :: q) = c :: Url.percent_encode_query true q.
Proof.
  intro H. unfold query_safe in H. apply andb_true_iff in H as [H1 H2].
  apply negb_true_iff in H2.
  unfold Url.percent_encode_query. cbn [flat_map].
  unfold Unicode.utf8_encode_cp. rewrite H1. cbn [flat_map]. rewrite H2. reflexivity.
Qed.

Lemma percent_encode_keep (x y : jsstring) :
  forallb query_safe x = true ->
  Url.percent_encode_query true (x ++ y) = x ++ Url.percent_encode_query true y.
Proof.
  intro H. induction x as [|c x IH]; [reflexivity|].
  cbn [forallb] in H. apply andb_true_iff in H as [Hc Hx].
  rewrite <- !app_comm_cons, (percent_encode_cons c _ Hc), (IH Hx). reflexivity.
Qed.

Lemma percent_encode_amp_tail (q : jsstring) :
  amp_tail q -> amp_tail (Url.percent_encode_query true q).
Proof.
  intros [->|[r ->]]; [left; reflexivity|]. right.
  rewrite percent_encode_cons by (vm_compute; reflexivity). eauto.
Qed.

Lemma param_char_query_safe (c : N) : param_char c = true -> query_safe c = true.
Proof. apply (ascii_table _ _ param_char_below_128). vm_compute. reflexivity. Qed.

Lemma param_char_not_hash (c : N) : param_char c = true -> negb (c =? ch "#") = true.
Proof.
  apply (ascii_table param_char (fun d => negb (d =? ch "#")) param_char_below_128).
  vm_compute. reflexivity.
Qed.

Lemma param_char_not_amp (c : N) : param_char c = true -> negb (c =? ch "&") = true.
Proof.
  apply (ascii_table param_char (fun d => negb (d =? ch "&")) param_char_below_128).
  vm_compute. reflexivity.
Qed.

Lemma split_class_first (p : N -> bool) (x q : jsstring) :
  forallb (fun c => negb (p c)) x = true ->
  q = [] \/ (exists d r, q = d :: r /\ p d = true) ->
  exists ps, Str.split_class p (x ++ q) = x :: ps.
Proof.
  intros Hx Hq. induction x as [|c x IH].
  - destruct Hq as [->|[d [r [-> Hd]]]].
    + exists []. reflexivity.
    + cbn [app Str.split_class]. rewrite Hd. eauto.
  - cbn [forallb] in Hx. apply andb_true_iff in Hx as [Hc Hx]. apply negb_true_iff in Hc.
    destruct (IH Hx) as [ps E].
    rewrite <- app_comm_cons. cbn [Str.split_class]. rewrite Hc, E. cbn [Str.cons_head]. eauto.
Qed.

(** An identifier is its own decoding. *)
Lemma id_class_not_plus (c : N) :
  Regex.id_class c = true -> (if c =? ch "+" then 0x20 else c) = c.
Proof.
  intro H.
  pose proof (ascii_table Regex.id_class (fun d => negb (d =? ch "+")) id_class_below_128
                ltac:(vm_compute; reflexivity) c H) as E.
  cbv beta in E. apply negb_true_iff in E. rewrite E. reflexivity.
Qed.

Lemma percent_decode_id (x : jsstring) :
  forallb Regex.id_class x = true -> Url.percent_decode x = x.
Proof.
  intro H. induction x as [|c x IH]; [reflexivity|].
  cbn [forallb] in H. apply andb_true_iff in H as [Hc Hx].
  pose proof (ascii_table Regex.id_class (fun d => negb (d =? ch "%")) id_class_below_128
                ltac:(vm_compute; reflexivity) c Hc) as E.
  cbv beta in E. apply negb_true_iff in E.
  cbn [Url.percent_decode]. rewrite E, (IH Hx). reflexivity.
Qed.

Lemma utf8_decode_ascii (x : jsstring) :
  forallb (fun c => c <=? 0x7F) x = true -> Unicode.utf8_decode x = x.
Proof.
  unfold Unicode.utf8_decode. intro H. induction x as [|c x IH]; [reflexivity|].
  cbn [forallb] in H. apply andb_true_iff in H as [Hc Hx].
  cbn [Unicode.utf8_decode_from]. unfold Unicode.utf8_lead. rewrite Hc.
  cbn [app]. rewrite (IH Hx). reflexivity.
Qed.

Lemma utf16_encode_ascii (x : jsstring) :
  forallb (fun c => c <=? 0x7F) x = true -> Unicode.utf16_encode x = x.
Proof.
  unfold Unicode.utf16_encode. intro H. induction x as [|c x IH]; [reflexivity|].
  cbn [forallb] in H. apply andb_true_iff in H as [Hc Hx].
  assert (E : Unicode.utf16_encode_cp c = [c]).
  { unfold Unicode.utf16_encode_cp.
    replace (c <? 0x10000) with true; [reflexivity|].
    symmetry. apply N.ltb_lt. apply N.leb_le in Hc. lia. }
  cbn [flat_map]. rewrite E, (IH Hx). reflexivity.
Qed.

Lemma id_class_ascii (c : N) : Regex.id_class c = true -> (c <=? 0x7F) = true.
Proof. intro H. apply N.leb_le. pose proof (id_class_below_128 c H). lia. Qed.

Lemma decode_component_id (x : jsstring) :
  forallb Regex.id_class x = true -> Url.decode_component x = x.
Proof.
  intro H. unfold Url.decode_component.
  assert (E : map (fun b => if b =? ch "+" then 0x20 else b) x = x).
  { clear -H. induction x as [|c x IH]; [reflexivity|].
    cbn [forallb] in H. apply andb_true_iff in H as [Hc Hx].
    cbn [map]. rewrite (id_class_not_plus c Hc), (IH Hx). reflexivity. }
  rewrite E, (percent_decode_id x H).
  pose proof (forallb_impl _ _ x id_class_ascii H) as A.
  rewrite (utf8_decode_ascii x A). apply utf16_encode_ascii, A.
Qed.

Lemma js_v_eq : js "v=" = [ch "v"; ch "="].
Proof. vm_compute. reflexivity. Qed.

Lemma watch_marker_includes : js "youtube.com/watch?v=" = js "youtube.com/watch" ++ js "?v=".
Proof. vm_compute. reflexivity. Qed.

Lemma parse_pair_v (id : jsstring) :
  forallb Regex.id_class id = true ->
  Url.parse_pair (js "v=" ++ id) = (js "v", id).
Proof.
  intro H. rewrite js_v_eq. unfold Url.parse_pair.
  change (Str.break (fun c => c =? ch "=") ([ch "v"; ch "="] ++ id))
    with ([ch "v"], ch "=" :: id).
  cbn [tl]. rewrite (decode_component_id id H).
  f_equal.
Qed.

Section WatchFacts.
Variable host_parser : bool -> jsstring -> bool.

Lemma param_chars (id : jsstring) :
forallb Regex.id_class id = true -> forallb param_char (js "v=" ++ id) = true.
Proof.
intro H. rewrite forallb_app. apply andb_true_iff. split.
- vm_compute. reflexivity.
- exact (forallb_impl _ _ id id_class_param H).
Qed.

Lemma host_char_below_128 (c : N) : host_char c = true -> c < 128.
Proof.
intro H. destruct (N.ltb_spec c 128) as [L|L]; [exact L|exfalso].
unfold host_char, Url.is_ascii_alpha, Url.is_ascii_digit in H.
assert (A : forall k, k < 128 -> (c <=? k) = false) by (intros; apply N.leb_gt; lia).
assert (B : forall k, k < 128 -> (c =? k) = false) by (intros; apply N.eqb_neq; lia).
rewrite (A (ch "z")), (A (ch "Z")), (A (ch "9")), (B (ch "-")), (B (ch "."))
  in H by (vm_compute; reflexivity).
rewrite !andb_false_r in H. discriminate H.
Qed.

Lemma host_char_plain (c : N) : host_char c = true -> plain_ascii c = true.
Proof. apply (ascii_table _ _ host_char_below_128). vm_compute. reflexivity. Qed.

Lemma host_char_not_slash (c : N) : host_char c = true -> Url.is_slash c = false.
Proof.
intro H. apply negb_true_iff.
revert c H. apply (ascii_table host_char (fun d => negb (Url.is_slash d)) host_char_below_128).
vm_compute. reflexivity.
Qed.

Lemma host_char_in_authority (c : N) :
host_char c = true ->
negb ((c =? ch "/") || (c =? ch "?") || (c =? ch "#") || (true && (c =? 0x5C))) = true.
Proof.
apply (ascii_table host_char
         (fun d => negb ((d =? ch "/") || (d =? ch "?") || (d =? ch "#")
                         || (true && (d =? 0x5C)))) host_char_below_128).
vm_compute. reflexivity.
Qed.

Lemma host_char_not_at (c : N) : host_char c = true -> (c =? ch "@") = false.
Proof.
intro H. apply negb_true_iff.
revert c H. apply (ascii_table host_char (fun d => negb (d =? ch "@")) host_char_below_128).
vm_compute. reflexivity.
Qed.

Lemma host_char_not_port (c : N) :
host_char c = true -> (c =? ch ":") = false /\ (c =? ch "[") = false.
Proof.
intro H.
pose proof (ascii_table host_char (fun d => negb (d =? ch ":") && negb (d =? ch "["))
              host_char_below_128 ltac:(vm_compute; reflexivity) c H) as E.
cbv beta in E. apply andb_true_iff in E as [E1 E2].
split; apply negb_true_iff; assumption.
Qed.

Lemma after_last_at_host (h : jsstring) :
forallb host_char h = true -> Url.after_last_at h = h.
Proof.
intro H. induction h as [|c h IH]; [reflexivity|].
cbn [forallb] in H. apply andb_true_iff in H as [Hc Hh].
cbn [Url.after_last_at].
assert (E : existsb (fun d => d =? ch "@") h = false).
{ clear -Hh. induction h as [|d h IH]; [reflexivity|].
  cbn [forallb] in Hh. apply andb_true_iff in Hh as [Hd Hh].
  cbn [existsb]. rewrite (host_char_not_at d Hd), (IH Hh). reflexivity. }
rewrite E, (host_char_not_at c Hc). reflexivity.
Qed.

Lemma split_host_port_host (h : jsstring) :
forallb host_char h = true -> Url.split_host_port false h = (h, None).
Proof.
intro H. induction h as [|c h IH]; [reflexivity|].
cbn [forallb] in H. apply andb_true_iff in H as [Hc Hh].
destruct (host_char_not_port c Hc) as [E1 E2].
cbn [Url.split_host_port]. rewrite E1, E2. cbn [andb].
destruct (c =? ch "]"); rewrite (IH Hh); reflexivity.
Qed.

Lemma drop_while_host (h y : jsstring) :
h <> [] -> forallb host_char h = true ->
Str.drop_while Url.is_slash (h ++ y) = h ++ y.
Proof.
intros Hne H. destruct h as [|c h]; [congruence|].
cbn [forallb] in H. apply andb_true_iff in H as [Hc _].
rewrite <- app_comm_cons. cbn [Str.drop_while].
rewrite (host_char_not_slash c Hc). reflexivity.
Qed.

(** After a special scheme and [://] comes the authority. *)
Lemma parse_states_scheme sc X :
Url.parse_states host_parser (scheme_text sc ++ js "://" ++ X) =
match Url.authority_state host_parser true (Str.drop_while Url.is_slash X) with
| Some q => Some (true, q)
| None => None
end.
Proof.
assert (S : Url.scheme_start_state (scheme_text sc ++ js "://" ++ X)
            = Some (scheme_text sc, [ch "/"; ch "/"] ++ X))
  by (destruct sc; vm_compute; reflexivity).
assert (F : jsstring_eqb (scheme_text sc) (js "file") = false)
  by (destruct sc; vm_compute; reflexivity).
assert (P : Url.is_special_scheme (scheme_text sc) = true)
  by (destruct sc; vm_compute; reflexivity).
unfold Url.parse_states. rewrite S. cbv zeta. rewrite F, P.
cbn [app Str.drop_while]. reflexivity.
Qed.

Lemma path_break R :
Str.break (fun c => (c =? ch "/") || (c =? ch "?") || (c =? ch "#")
                    || (true && (c =? ch "\"))) (js "/watch?" ++ R)
= ([], js "/watch?" ++ R).
Proof. vm_compute. reflexivity. Qed.

Lemma watch_path_query R :
Url.query_of (js "/watch?" ++ R) = Some (fst (Str.break (fun d => d =? ch "#") R)).
Proof. vm_compute. reflexivity. Qed.

Lemma authority_state_host h R :
h <> [] -> forallb host_char h = true ->
Url.authority_state host_parser true (h ++ js "/watch?" ++ R) =
if host_parser false h
then Some (Some (fst (Str.break (fun d => d =? ch "#") R)))
else None.
Proof.
intros Hne H. unfold Url.authority_state.
rewrite break_keep by exact (forallb_impl _ _ h host_char_in_authority H).
rewrite path_break. cbn [fst snd]. rewrite app_nil_r.
rewrite (after_last_at_host h H).
unfold Url.host_state. rewrite (split_host_port_host h H).
rewrite watch_path_query.
destruct h as [|c h]; [congruence|]. reflexivity.
Qed.

Lemma parse_states_watch sc h R :
h <> [] -> forallb host_char h = true ->
Url.parse_states host_parser (scheme_text sc ++ js "://" ++ h ++ js "/watch?" ++ R) =
if host_parser false h
then Some (true, Some (fst (Str.break (fun d => d =? ch "#") R)))
else None.
Proof.
intros Hne H. rewrite parse_states_scheme, (drop_while_host h _ Hne H).
rewrite (authority_state_host h R Hne H).
destruct (host_parser false h); reflexivity.
Qed.

Lemma scheme_plain sc : forallb plain_ascii (scheme_text sc ++ js "://") = true.
Proof. destruct sc; vm_compute; reflexivity. Qed.

Lemma scheme_nonempty sc x : scheme_text sc ++ x <> [].
Proof. destruct sc; vm_compute; discriminate. Qed.

Lemma youtube_host_chars (sub : jsstring) :
forallb host_char sub = true ->
sub ++ js "youtube.com" <> [] /\ forallb host_char (sub ++ js "youtube.com") = true.
Proof.
intro H. split.
- intro E. apply app_eq_nil in E as [_ E]. vm_compute in E. discriminate E.
- rewrite forallb_app, H. vm_compute. reflexivity.
Qed.

Lemma watch_marker_parts :
js "youtube.com/watch?v=" = js "youtube.com" ++ js "/watch?" ++ js "v=".
Proof. vm_compute. reflexivity. Qed.

Lemma path_plain : forallb plain_ascii (js "/watch?") = true.
Proof. vm_compute. reflexivity. Qed.

Lemma watch_query sc sub id tl :
forallb host_char sub = true ->
host_parser false (sub ++ js "youtube.com") = true ->
forallb Regex.id_class id = true ->
watch_trailing tl ->
exists q,
  amp_tail q /\
  Url.basic_url_parser host_parser
    (Unicode.to_scalar_values
       ((scheme_text sc ++ js "://" ++ sub) ++ js "youtube.com/watch?v=" ++ id ++ tl))
  = Some (true, Some (js "v=" ++ id ++ q)).
Proof.
intros Hsub Hhost Hid Htl.
destruct (youtube_host_chars sub Hsub) as [Hne Hh].
exists (fst (Str.break (fun d => d =? ch "#") (preprocess_tail (Unicode.to_scalar_values tl)))).
split; [apply fragment_cut, Htl|].
pose proof (param_chars id Hid) as Hp.
assert (Hplain : forallb plain_ascii
                   ((scheme_text sc ++ js "://") ++ (sub ++ js "youtube.com")
                    ++ js "/watch?" ++ js "v=" ++ id) = true).
{ rewrite forallb_app, scheme_plain.
  rewrite forallb_app, (forallb_impl _ _ _ host_char_plain Hh).
  rewrite forallb_app, path_plain.
  exact (forallb_impl _ _ _ param_char_plain Hp). }
unfold Url.basic_url_parser.
rewrite watch_marker_parts.
replace ((scheme_text sc ++ js "://" ++ sub)
         ++ (js "youtube.com" ++ js "/watch?" ++ js "v=") ++ id ++ tl)
  with (((scheme_text sc ++ js "://") ++ (sub ++ js "youtube.com")
         ++ js "/watch?" ++ js "v=" ++ id) ++ tl)
  by (rewrite <- !app_assoc; reflexivity).
rewrite (to_scalar_values_plain _ tl Hplain).
rewrite preprocess_plain; [| |exact Hplain].
- rewrite <- !app_assoc.
  rewrite (app_assoc sub (js "youtube.com")).
  rewrite (parse_states_watch sc (sub ++ js "youtube.com") _ Hne Hh), Hhost.
  rewrite (app_assoc (js "v=") id).
  rewrite break_keep by exact (forallb_impl _ _ _ param_char_not_hash Hp).
  cbn [fst]. rewrite <- app_assoc. reflexivity.
- rewrite <- app_assoc. apply scheme_nonempty.
Qed.

Lemma filter_nonempty_head (x : jsstring) (ps : list jsstring) :
x <> [] ->
filter (fun sq : jsstring => match sq with [] => false | _ => true end) (x :: ps) =
x :: filter (fun sq : jsstring => match sq with [] => false | _ => true end) ps.
Proof. intro H. destruct x; [congruence | reflexivity]. Qed.

Lemma watch_get sc sub id tl :
forallb host_char sub = true ->
host_parser false (sub ++ js "youtube.com") = true ->
forallb Regex.id_class id = true ->
watch_trailing tl ->
exists u,
  Url.URL_new host_parser
    ((scheme_text sc ++ js "://" ++ sub) ++ js "youtube.com/watch?v=" ++ id ++ tl)
  = Normal u /\
  Url.get (Url.searchParams u) (js "v") = Some id.
Proof.
intros Hsub Hhost Hid Htl.
destruct (watch_query sc sub id tl Hsub Hhost Hid Htl) as [q [Hq E]].
unfold Url.URL_new. rewrite E. eexists. split; [reflexivity|].
cbn [Url.searchParams].
pose proof (param_chars id Hid) as Hp.
rewrite app_assoc, percent_encode_keep
  by exact (forallb_impl _ _ _ param_char_query_safe Hp).
unfold Url.urlencoded_parse.
destruct (split_class_first (fun c => c =? ch "&") (js "v=" ++ id)
            (Url.percent_encode_query true q)) as [ps Hs].
- exact (forallb_impl _ _ _ param_char_not_amp Hp).
- destruct (percent_encode_amp_tail q Hq) as [->|[r ->]]; [left; reflexivity|].
  right. exists (ch "&"), r. split; reflexivity.
- rewrite Hs, filter_nonempty_head.
  + cbn [map]. rewrite (parse_pair_v id Hid).
    unfold Url.get. cbn [find fst]. rewrite jsstring_eqb_refl. reflexivity.
  + rewrite js_v_eq. discriminate.
Qed.
End WatchFacts.


(* ================================================================= *)
(** ** Claims about the identifier extractor *)

Section ExtractorClaims.

Variable host_parser : bool -> jsstring -> bool.

Lemma includes_nil (sub : jsstring) : sub <> [] -> Str.includes [] sub = false.
Proof. destruct sub; [congruence | reflexivity]. Qed.

Lemma test_url_short_link : Str.includes test_url (js "youtu.be/") = true.
Proof. vm_compute. reflexivity. Qed.

(** A string that is not of the short-link shape is not the example URL. *)
Lemma not_test_url (s : jsstring) :
  Str.includes s (js "youtu.be/") = false -> jsstring_eqb s test_url = false.
Proof.
  intro H. destruct (jsstring_eqb s test_url) eqn:E; [|reflexivity].
  apply jsstring_eqb_eq in E. subst s. rewrite test_url_short_link in H.
  discriminate H.
Qed.

(** C2: whatever the input, a non-empty result of [extractYouTubeVideoId]
    is a video identifier: exactly eleven characters of [A-Za-z0-9_-].
    This holds on the path through the hardcoded example URL too. *)
Theorem extract_result_is_identifier (url : jsval) (id : jsstring) :
  extractYouTubeVideoId host_parser url = Normal id ->
  id <> [] ->
  is_video_identifier id.
Proof.
  intros H Hne. unfold extractYouTubeVideoId in H.
  destruct (falsy url || typeof_not_string url).
  - injection H as <-. congruence.
  - destruct url as [| |b|x|s|l|f]; try (injection H as <-; congruence).
    destruct (jsstring_eqb s test_url).
    + injection H as <-. apply test_id_identifier. vm_compute. reflexivity.
    + destruct (extract_general_validates host_parser s) as [v Hv].
      rewrite Hv in H. injection H as <-.
      destruct (validate_cases v) as [E|[E T]]; [congruence|].
      rewrite E. apply test_id_identifier. exact T.
Qed.

(** C3: [extractYouTubeVideoId] completes normally on every value: on the
    empty string and on anything that is not a string it returns the
    empty result, and so it does when the input has the watch shape and
    the URL constructor throws. *)
Theorem extract_never_throws (url : jsval) :
  (exists id, extractYouTubeVideoId host_parser url = Normal id) /\
  (falsy url = true \/ typeof_not_string url = true ->
   extractYouTubeVideoId host_parser url = Normal []) /\
  (forall s e,
      url = VString s ->
      Str.includes s (js "youtu.be/") = false ->
      Str.includes s (js "youtube.com/watch") = true ->
      Url.URL_new host_parser s = Throw e ->
      extractYouTubeVideoId host_parser url = Normal []).
Proof.
  split; [|split].
  - unfold extractYouTubeVideoId.
    destruct (falsy url || typeof_not_string url); [eauto|].
    destruct url as [| |b|x|s|l|f]; eauto.
    destruct (jsstring_eqb s test_url); [eauto|].
    destruct (extract_general_validates host_parser s) as [v Hv]. eauto.
  - intros H. unfold extractYouTubeVideoId.
    destruct (falsy url || typeof_not_string url) eqn:E; [reflexivity|].
    apply orb_false_iff in E as [E1 E2]. destruct H; congruence.
  - intros s e -> Hshort Hwatch Hthrow.
    rewrite extract_string. destruct s as [|c s].
    + reflexivity.
    + rewrite (not_test_url _ Hshort).
      unfold extract_general, dispatch. rewrite Hshort, Hwatch, Hthrow.
      reflexivity.
Qed.

(** C10: the test for the example URL changes nothing.  On that URL the
    short-link branch and the validation yield the identifier that the
    shortcut returns, so the function with the test taken out returns the
    same result on every input. *)
Theorem shortcut_is_redundant :
  extract_general host_parser test_url = Normal (js "QiZ62yswdPw") /\
  forall url : jsval,
    extractYouTubeVideoId host_parser url = extract_without_shortcut host_parser url.
Proof.
  split; [apply extract_general_test_url|].
  intro url. unfold extractYouTubeVideoId, extract_without_shortcut.
  destruct (falsy url || typeof_not_string url); [reflexivity|].
  destruct url as [| |b|x|s|l|f]; try reflexivity.
  destruct (jsstring_eqb s test_url) eqn:E; [|reflexivity].
  apply jsstring_eqb_eq in E. subst s.
  symmetry. apply extract_general_test_url.
Qed.

(** With none of the four markers the result is what the last-resort
    expression captures. *)
Lemma extract_fallback (s : jsstring) :
  s <> [] -> no_marker s ->
  extractYouTubeVideoId host_parser (VString s) =
  Normal (match Regex.match_id s with Some w => w | None => [] end).
Proof.
  intros Hne (H1 & H2 & H3 & H4).
  rewrite extract_string. destruct s as [|c s]; [congruence|].
  rewrite (not_test_url _ H1).
  unfold extract_general, dispatch. rewrite H1, H2, H3, H4.
  destruct (Regex.match_id (c :: s)) as [w|] eqn:E.
  - simpl. rewrite (validate_identifier _ (match_id_valid _ _ E)). reflexivity.
  - reflexivity.
Qed.

(** C4, as the code has it: on a non-empty string with none of the four
    markers the result is the leftmost window of eleven consecutive
    identifier characters, whether or not the run around it is longer,
    and the empty result when the string has no such window. *)
Theorem fallback_leftmost_window (s : jsstring) :
  s <> [] -> no_marker s ->
  (forall i w,
      window_at s i w ->
      (forall j w', window_at s j w' -> (i <= j)%nat) ->
      extractYouTubeVideoId host_parser (VString s) = Normal w) /\
  ((forall i w, ~ window_at s i w) ->
   extractYouTubeVideoId host_parser (VString s) = Normal []).
Proof.
  intros Hne Hm. rewrite (extract_fallback s Hne Hm).
  pose proof (match_id_leftmost s) as L.
  destruct (Regex.match_id s) as [w0|].
  - destruct L as [i0 [Hw0 Hmin0]]. split.
    + intros i w Hw Hmin.
      assert (i = i0) by (apply Hmin in Hw0; apply Hmin0 in Hw; lia). subst i0.
      destruct Hw as [-> _]. destruct Hw0 as [-> _]. reflexivity.
    + intro Hnone. exfalso. exact (Hnone i0 w0 Hw0).
  - split; [|reflexivity].
    intros i w Hw _. exfalso. exact (L i w Hw).
Qed.

Lemma path_marker_facts (sh : url_shape) :
  sh <> Watch ->
  shape_marker sh <> [] /\
  no_delimiter (shape_marker sh) = true /\
  has_non_id (shape_marker sh) = true.
Proof.
  intro H. destruct sh; try congruence;
    (split; [vm_compute; discriminate|]);
    (split; vm_compute; reflexivity).
Qed.

Lemma trailing_ends_id (sh : url_shape) (trailing : jsstring) :
  sh <> Watch -> trailing_content sh trailing -> ends_id trailing.
Proof.
  intros Hsh [->|[d [r [-> Hd]]]]; [left; reflexivity|].
  right. exists d, r. split; [reflexivity|].
  destruct sh; try congruence; exact Hd.
Qed.

Lemma trailing_watch (trailing : jsstring) :
  trailing_content Watch trailing -> watch_trailing trailing.
Proof.
  intros [->|[d [r [-> Hd]]]]; [left; reflexivity|].
  right. exists d, r. split; [reflexivity|].
  cbn [opens_trailing] in Hd. apply orb_true_iff in Hd as [Hd|Hd];
    apply N.eqb_eq in Hd; auto.
Qed.

Lemma identifier_chars (id : jsstring) :
  is_video_identifier id -> forallb Regex.id_class id = true /\ id <> [].
Proof.
  intro H. pose proof (proj2 (test_id_identifier id) H) as T.
  unfold Regex.test_id in T. apply andb_true_iff in T as [Hl Hc].
  split; [exact Hc|]. intros ->. discriminate Hl.
Qed.

Lemma marker_short : shape_marker ShortLink = js "youtu.be/".
Proof. vm_compute. reflexivity. Qed.

Lemma marker_old : shape_marker OldPlayer = js "youtube.com/v/".
Proof. vm_compute. reflexivity. Qed.

Lemma marker_embed : shape_marker Embed = js "youtube.com/embed/".
Proof. vm_compute. reflexivity. Qed.

Lemma marker_watch : shape_marker Watch = js "youtube.com/watch?v=".
Proof. vm_compute. reflexivity. Qed.

Lemma earlier_watch : earlier_markers Watch = [js "youtu.be/"].
Proof. vm_compute. reflexivity. Qed.

Lemma earlier_old : earlier_markers OldPlayer = [js "youtu.be/"; js "youtube.com/watch"].
Proof. vm_compute. reflexivity. Qed.

Lemma earlier_embed :
  earlier_markers Embed = [js "youtu.be/"; js "youtube.com/watch"; js "youtube.com/v/"].
Proof. vm_compute. reflexivity. Qed.

(** The watch branch finds the identifier of an [http] or [https] URL
    whose host ends in [youtube.com] and is accepted. *)
Lemma dispatch_watch (sc : url_scheme) (sub id trailing : jsstring) :
  is_video_identifier id ->
  trailing_content Watch trailing ->
  Forall (fun m => Str.includes
                     (shaped_url (scheme_text sc ++ js "://" ++ sub) Watch id trailing) m
                   = false)
         (earlier_markers Watch) ->
  forallb host_char sub = true ->
  host_parser false (sub ++ js "youtube.com") = true ->
  dispatch host_parser (shaped_url (scheme_text sc ++ js "://" ++ sub) Watch id trailing)
  = Normal id.
Proof.
  intros Hid Htl Hearlier Hsub Hhost.
  destruct (identifier_chars id Hid) as [Hc Hne].
  rewrite earlier_watch in Hearlier.
  pose proof (Forall_inv Hearlier) as H1. cbv beta in H1.
  unfold dispatch. cbv zeta. rewrite H1.
  assert (Hw : Str.includes
                 (shaped_url (scheme_text sc ++ js "://" ++ sub) Watch id trailing)
                 (js "youtube.com/watch") = true).
  { unfold shaped_url. rewrite marker_watch, watch_marker_includes.
    rewrite <- (app_assoc (js "youtube.com/watch") (js "?v=")). apply includes_app. }
  rewrite Hw.
  destruct (watch_get host_parser sc sub id trailing Hsub Hhost Hc
              (trailing_watch trailing Htl)) as [u [Hu Hg]].
  unfold shaped_url. rewrite marker_watch, Hu. cbn [bind try_catch].
  rewrite Hg. destruct id; [congruence|reflexivity].
Qed.

End ExtractorClaims.

(* ================================================================= *)
(** ** Claims about the handler *)

Section HandlerClaims.

Variable host_parser : bool -> jsstring -> bool.
Variable number_to_string : spec_float -> jsstring.
Variable world : services.

Lemma video_details_unusable (videoId : jsstring) :
  metadata_unusable (youtube_videos world videoId) ->
  video_details world videoId = Normal [].
Proof.
  intro H. unfold video_details. inversion H as [e He | r Hr He | r Hr He];
    try reflexivity; unfold response_description in Hr; simpl;
    destruct (data r) as [d|]; try reflexivity; simpl;
    destruct (items d) as [[|it its]|]; try reflexivity; simpl;
    destruct (snippet it) as [sn|]; try reflexivity;
    rewrite Hr; reflexivity.
Qed.

(** The inner [try] around the metadata call always completes, and its
    text is empty or starts with the title line. *)
Lemma video_details_cases (videoId : jsstring) :
  video_details world videoId = Normal [] \/
  exists rest, video_details world videoId = Normal (js "[Video title: " ++ rest).
Proof.
  unfold video_details.
  destruct (youtube_videos world videoId) as [r|e]; [|left; reflexivity]. simpl.
  destruct (data r) as [d|]; [|left; reflexivity]. simpl.
  destruct (items d) as [[|it its]|]; try (left; reflexivity). simpl.
  destruct (snippet it) as [sn|]; [|left; reflexivity].
  destruct (description sn) as [[|c desc]|]; try (left; reflexivity).
  right. eexists. reflexivity.
Qed.

Lemma handle_unfold (b : request_body) (videoId : jsstring) :
  req_json world = Normal b ->
  extractYouTubeVideoId host_parser (videoUrl b) = Normal videoId ->
  handle host_parser number_to_string world =
  if is_empty videoId then
    Normal (json_response 400
              [(js "error",
                VString (js "Could not extract a valid YouTube video ID from the provided URL."));
               (js "receivedUrl", videoUrl b)])
  else
    (transcriptText <- video_details world videoId ;;
     if is_empty (Str.trim transcriptText) then
       (msg <- noTranscript_message number_to_string (request_locale b) ;;
        Normal (json_response 400 [(js "error", msg)]))
     else summarize number_to_string world (request_locale b) (trim_content transcriptText))%js.
Proof.
  intros Hb Hid. unfold handle. rewrite Hb. simpl. rewrite Hid. reflexivity.
Qed.

Lemma POST_of_handle (r : response) :
  handle host_parser number_to_string world = Normal r ->
  POST host_parser number_to_string world = r.
Proof. intro H. unfold POST. rewrite H. reflexivity. Qed.

Lemma json_response_one (code : Z) (k v : jsstring) :
  json_response code [(k, VString v)] =
  {| status := code; content_type := js "application/json";
     body := VObject [(k, VString v)] |}.
Proof. reflexivity. Qed.

Lemma json_response_error (code : Z) (msg : jsstring) :
  json_response code [(js "error", VString msg)] =
  {| status := code; content_type := js "application/json"; body := error_body msg |}.
Proof. apply json_response_one. Qed.

(** The body of the answer when no identifier was found: the property
    [receivedUrl] is there unless the value is [undefined]. *)
Lemma no_identifier_body (v : jsval) :
  body (json_response 400
          [(js "error",
            VString (js "Could not extract a valid YouTube video ID from the provided URL."));
           (js "receivedUrl", v)]) =
  VObject ((js "error", VString no_identifier_message)
           :: (if is_undefined v then [] else [(js "receivedUrl", to_json v)])).
Proof.
  unfold json_response, no_identifier_message. cbn [body to_json flat_map fst snd is_undefined app].
  destruct (is_undefined v); reflexivity.
Qed.

(** Induction on a value, with its elements and fields. *)
Lemma jsval_nested_ind (P : jsval -> Prop) :
  P VUndefined -> P VNull -> (forall b, P (VBool b)) -> (forall x, P (VNumber x)) ->
  (forall s, P (VString s)) ->
  (forall items, Forall P items -> P (VArray items)) ->
  (forall fields, Forall (fun kv => P (snd kv)) fields -> P (VObject fields)) ->
  forall v, P v.
Proof.
  intros H1 H2 H3 H4 H5 H6 H7. fix IH 1.
  intros [| |b|x|s|items|fields];
    [exact H1 | exact H2 | apply H3 | apply H4 | apply H5 | |].
  - apply H6. induction items as [|a l IHl]; constructor; [apply IH | exact IHl].
  - apply H7. induction fields as [|[k a] l IHl]; constructor; [apply IH | exact IHl].
Qed.

(** [JSON.stringify] changes nothing in a value that JSON carries as it
    is. *)
Lemma to_json_exact (v : jsval) : json_exact v = true -> to_json v = v.
Proof.
  induction v as [| |b|x|s|items IH|fields IH] using jsval_nested_ind;
    intro H; try reflexivity.
  - destruct x as [sg|sg| |sg m e]; try discriminate H; [|reflexivity].
    cbn [json_exact] in H. destruct sg; [discriminate H|reflexivity].
  - cbn [to_json]. apply f_equal. cbn [json_exact] in H.
    induction items as [|a l IHl]; [reflexivity|].
    cbn [forallb] in H. apply andb_true_iff in H as [Ha Hl].
    cbn [map]. rewrite (IHl (Forall_inv_tail IH) Hl), (Forall_inv IH Ha).
    destruct a; try reflexivity. discriminate Ha.
  - cbn [to_json]. apply f_equal. cbn [json_exact] in H.
    induction fields as [|[k a] l IHl]; [reflexivity|].
    cbn [forallb snd] in H. apply andb_true_iff in H as [Ha Hl].
    cbn [flat_map fst snd]. rewrite (IHl (Forall_inv_tail IH) Hl).
    pose proof (Forall_inv IH) as Ia. cbn [snd] in Ia. rewrite (Ia Ha).
    destruct a; try reflexivity. discriminate Ha.
Qed.

Lemma json_exact_defined (v : jsval) : json_exact v = true -> is_undefined v = false.
Proof. destruct v; [discriminate|reflexivity..]. Qed.

(** C8, as the code has it: when the [videoUrl] of the request yields no
    identifier, the answer is HTTP 400 and its body is the JSON text of an
    error message with, as [receivedUrl], the value that was received.  A
    string is echoed as it is, the empty string for the empty string, and
    so is every value that JSON carries as it is; a request without
    [videoUrl] gets a body without [receivedUrl], and a number that is not
    finite is echoed as [null]. *)
Theorem no_identifier_is_400 (b : request_body) :
  req_json world = Normal b ->
  extractYouTubeVideoId host_parser (videoUrl b) = Normal [] ->
  POST host_parser number_to_string world =
  json_response 400
    [(js "error", VString no_identifier_message); (js "receivedUrl", videoUrl b)] /\
  status (POST host_parser number_to_string world) = 400%Z /\
  (forall s,
      videoUrl b = VString s ->
      body (POST host_parser number_to_string world) =
      VObject [(js "error", VString no_identifier_message); (js "receivedUrl", VString s)]) /\
  (json_exact (videoUrl b) = true ->
   body (POST host_parser number_to_string world) =
   VObject [(js "error", VString no_identifier_message); (js "receivedUrl", videoUrl b)]) /\
  (videoUrl b = VUndefined ->
   body (POST host_parser number_to_string world) = error_body no_identifier_message) /\
  (forall x,
      videoUrl b = VNumber x -> x = S754_nan \/ (exists sg, x = S754_infinity sg) ->
      body (POST host_parser number_to_string world) =
      VObject [(js "error", VString no_identifier_message); (js "receivedUrl", VNull)]).
Proof.
  intros Hb He.
  assert (G : POST host_parser number_to_string world =
              json_response 400
                [(js "error",
                  VString (js "Could not extract a valid YouTube video ID from the provided URL."));
                 (js "receivedUrl", videoUrl b)]).
  { apply POST_of_handle. rewrite (handle_unfold b [] Hb He). reflexivity. }
  split; [exact G|]. rewrite G. split; [reflexivity|].
  rewrite no_identifier_body.
  split; [|split; [|split]].
  - intros s Hs. rewrite Hs. reflexivity.
  - intro Hx. rewrite (json_exact_defined _ Hx), (to_json_exact _ Hx). reflexivity.
  - intros ->. reflexivity.
  - intros x -> [->|[sg ->]]; reflexivity.
Qed.

Lemma is_empty_false (s : jsstring) : s <> [] -> is_empty s = false.
Proof. destruct s; [congruence | reflexivity]. Qed.

Lemma handle_no_content (b : request_body) (videoId t : jsstring) :
  req_json world = Normal b ->
  extractYouTubeVideoId host_parser (videoUrl b) = Normal videoId ->
  videoId <> [] ->
  video_details world videoId = Normal t ->
  is_empty (Str.trim t) = true ->
  handle host_parser number_to_string world =
  (msg <- noTranscript_message number_to_string (request_locale b) ;;
   Normal (json_response 400 [(js "error", msg)]))%js.
Proof.
  intros Hb Hid Hne Ht Hblank. rewrite (handle_unfold b videoId Hb Hid).
  rewrite (is_empty_false _ Hne), Ht.
  unfold bind at 1. rewrite Hblank. reflexivity.
Qed.

Lemma handle_with_content (b : request_body) (videoId t : jsstring) :
  req_json world = Normal b ->
  extractYouTubeVideoId host_parser (videoUrl b) = Normal videoId ->
  videoId <> [] ->
  video_details world videoId = Normal t ->
  is_empty (Str.trim t) = false ->
  handle host_parser number_to_string world =
  summarize number_to_string world (request_locale b) (trim_content t).
Proof.
  intros Hb Hid Hne Ht Hblank. rewrite (handle_unfold b videoId Hb Hid).
  rewrite (is_empty_false _ Hne), Ht.
  unfold bind at 1. rewrite Hblank. reflexivity.
Qed.

(** The conversion to a property key throws one error only. *)
Lemma to_string_throws (v : jsval) (e : jserror) :
  to_string number_to_string v = Throw e -> e = TypeError_to_primitive.
Proof.
  revert e.
  induction v as [| |b|x|s|items IH|fields IH] using jsval_nested_ind;
    intros e H; try discriminate H.
  - cbn [to_string] in H. revert e H.
    induction items as [|a l IHl]; intros e H; [discriminate H|].
    cbn [map join] in H.
    pose proof (Forall_inv IH) as Ia.
    destruct (match a with
              | VUndefined | VNull => Normal []
              | _ => to_string number_to_string a
              end) as [sa|ea] eqn:Ea.
    + cbn [bind] in H.
      destruct (map (fun x => match x with
                              | VUndefined | VNull => Normal []
                              | _ => to_string number_to_string x
                              end) l) as [|y ys]; [discriminate H|].
      destruct (join (y :: ys)) as [sb|eb].
      * discriminate H.
      * cbn [bind] in H. injection H as <-.
        exact (IHl (Forall_inv_tail IH) _ eq_refl).
    + cbn [bind] in H. injection H as <-.
      destruct a; try discriminate Ea; exact (Ia _ Ea).
  - cbn [to_string] in H.
    destruct (own_property fields (js "toString")); [|discriminate H].
    injection H as <-. reflexivity.
Qed.

Lemma lookup_key {A} (literal : list (jsstring * A)) (v : jsval) (k : jsstring) :
  to_property_key number_to_string v = Normal k ->
  lookup number_to_string literal v = Normal (get_property literal k).
Proof. intro H. unfold lookup. rewrite H. reflexivity. Qed.

Lemma lookup_throw {A} (literal : list (jsstring * A)) (v : jsval) (e : jserror) :
  to_property_key number_to_string v = Throw e ->
  lookup number_to_string literal v = Throw TypeError_to_primitive.
Proof.
  intro H. unfold lookup. rewrite H.
  rewrite (to_string_throws v e H). reflexivity.
Qed.

Lemma chat_request_of_key (loc : jsval) (k text : jsstring) :
  to_property_key number_to_string loc = Normal k ->
  chat_request_of number_to_string loc text = Normal (request_for_key k text).
Proof.
  intro Hk. unfold chat_request_of, build_messages, system_prompt, user_prompt_prefix.
  rewrite !(lookup_key _ _ _ Hk). reflexivity.
Qed.

Lemma noTranscript_message_own (loc : jsval) (k : jsstring) (bundle : error_bundle) :
  to_property_key number_to_string loc = Normal k ->
  own_property errorMessages k = Some bundle ->
  noTranscript_message number_to_string loc = Normal (VString (noTranscript bundle)).
Proof.
  intros Hk H. unfold noTranscript_message. rewrite (lookup_key _ _ _ Hk).
  unfold get_property. rewrite H. reflexivity.
Qed.

Lemma locale_bundle_key (b : request_body) (bundle : error_bundle) :
  locale_bundle (locale b) bundle ->
  exists k, request_locale b = VString k /\ own_property errorMessages k = Some bundle.
Proof.
  unfold request_locale. intro H.
  destruct H as [x Hx|x Hx|x Hx]; eexists; (split; [reflexivity|exact Hx]).
Qed.

(** C5: a failure of the metadata call is not a failure of the request.
    For a request with a valid identifier whose metadata call fails or
    gives no usable description, the text to summarize stays empty and,
    when the locale is [ko] or [en] (or the default), the answer is HTTP
    400 with the "no transcript" message of that locale. *)
Theorem metadata_failure_is_400 (b : request_body) (videoId : jsstring) :
  req_json world = Normal b ->
  extractYouTubeVideoId host_parser (videoUrl b) = Normal videoId ->
  videoId <> [] ->
  metadata_unusable (youtube_videos world videoId) ->
  video_details world videoId = Normal [] /\
  forall bundle,
    locale_bundle (locale b) bundle ->
    POST host_parser number_to_string world =
    {| status := 400; content_type := js "application/json";
       body := error_body (noTranscript bundle) |}.
Proof.
  intros Hb Hid Hne Hmeta.
  pose proof (video_details_unusable videoId Hmeta) as Ht.
  split; [exact Ht|].
  intros bundle Hloc. apply POST_of_handle.
  rewrite (handle_no_content b videoId [] Hb Hid Hne Ht eq_refl).
  destruct (locale_bundle_key b bundle Hloc) as [k [Hk Hown]].
  rewrite Hk. rewrite (noTranscript_message_own (VString k) k bundle eq_refl Hown).
  unfold bind. apply f_equal. apply json_response_error.
Qed.

Lemma jsstring_eqb_neq (a b : jsstring) : a <> b -> jsstring_eqb a b = false.
Proof.
  intro H. destruct (jsstring_eqb a b) eqn:E; [|reflexivity].
  apply jsstring_eqb_eq in E. contradiction.
Qed.

Lemma not_inherited (key : jsstring) :
  ~ In key object_prototype_keys ->
  existsb (jsstring_eqb key) object_prototype_keys = false.
Proof.
  intro H. destruct (existsb (jsstring_eqb key) object_prototype_keys) eqn:E;
    [|reflexivity].
  apply existsb_exists in E as [k [Hin Hk]]. apply jsstring_eqb_eq in Hk.
  subst k. contradiction.
Qed.

Lemma errorMessages_missing (k : jsstring) :
  unknown_key k -> get_property errorMessages k = Missing.
Proof.
  intros (Hko & Hen & Hproto). unfold get_property, errorMessages, own_property.
  rewrite (jsstring_eqb_neq (js "ko") k) by congruence.
  rewrite (jsstring_eqb_neq (js "en") k) by congruence.
  rewrite (not_inherited k Hproto). reflexivity.
Qed.

Lemma unexpected_error_message :
  or_else (message (TypeError_read_undefined "noTranscript"))
          (js "An unexpected error occurred")
  = message (TypeError_read_undefined "noTranscript").
Proof. vm_compute. reflexivity. Qed.

Lemma to_primitive_error_message :
  or_else (message TypeError_to_primitive) (js "An unexpected error occurred")
  = message TypeError_to_primitive.
Proof. vm_compute. reflexivity. Qed.

(** C6, as the code has it: the locale of the request is any value of the
    body, and the message table is read at its property key.  When the
    text to summarize is empty and that key is neither [ko] nor [en] nor
    the name of a member that every object inherits from
    [Object.prototype], reading the message table throws before the HTTP
    400 answer is built, and the outermost handler answers HTTP 500 with
    the message of that error; so it does when the locale has no property
    key, with the message of the failed conversion. *)
Theorem unknown_locale_is_500 (b : request_body) (videoId t : jsstring) :
  req_json world = Normal b ->
  extractYouTubeVideoId host_parser (videoUrl b) = Normal videoId ->
  videoId <> [] ->
  video_details world videoId = Normal t ->
  is_empty (Str.trim t) = true ->
  (forall tag,
      locale b = VString tag ->
      unknown_key tag ->
      POST host_parser number_to_string world =
      {| status := 500; content_type := js "application/json";
         body := error_body (message (TypeError_read_undefined "noTranscript")) |}) /\
  (forall k,
      to_property_key number_to_string (request_locale b) = Normal k ->
      unknown_key k ->
      noTranscript_message number_to_string (request_locale b)
      = Throw (TypeError_read_undefined "noTranscript") /\
      POST host_parser number_to_string world =
      {| status := 500; content_type := js "application/json";
         body := error_body (message (TypeError_read_undefined "noTranscript")) |}) /\
  (forall e,
      to_property_key number_to_string (request_locale b) = Throw e ->
      POST host_parser number_to_string world =
      {| status := 500; content_type := js "application/json";
         body := error_body (message TypeError_to_primitive) |}).
Proof.
  intros Hb Hid Hne Ht Hblank.
  pose proof (handle_no_content b videoId t Hb Hid Hne Ht Hblank) as Hh.
  assert (K : forall k,
             to_property_key number_to_string (request_locale b) = Normal k ->
             unknown_key k ->
             noTranscript_message number_to_string (request_locale b)
             = Throw (TypeError_read_undefined "noTranscript") /\
             POST host_parser number_to_string world =
             {| status := 500; content_type := js "application/json";
                body := error_body (message (TypeError_read_undefined "noTranscript")) |}).
  { intros k Hk Hunknown.
    assert (Hthrow : noTranscript_message number_to_string (request_locale b)
                     = Throw (TypeError_read_undefined "noTranscript")).
    { unfold noTranscript_message. rewrite (lookup_key _ _ _ Hk).
      rewrite (errorMessages_missing k Hunknown). reflexivity. }
    split; [exact Hthrow|].
    unfold POST. rewrite Hh, Hthrow. unfold bind.
    rewrite unexpected_error_message. apply json_response_error. }
  split; [|split; [exact K|]].
  - intros tag Htag Hunknown. apply (K tag); [|exact Hunknown].
    unfold request_locale. rewrite Htag. reflexivity.
  - intros e He. unfold POST. rewrite Hh. unfold noTranscript_message.
    rewrite (lookup_throw _ _ _ He). unfold bind.
    rewrite to_primitive_error_message. apply json_response_error.
Qed.

Lemma lacks_text_content (c : option chat_completion) :
  lacks_text c -> completion_content c = None \/ completion_content c = Some [].
Proof. intro H. destruct H; auto. Qed.

(** C7: for a request that reaches the summarization call, a failure of
    the call is answered HTTP 500 with a message that carries the
    description of the failure, and an answer without text (missing
    choices, message or content, or empty content) is answered HTTP 500
    with "Failed to generate summary". *)
Theorem summarization_failure_is_500 (b : request_body) (videoId t : jsstring)
        (request : chat_request) :
  req_json world = Normal b ->
  extractYouTubeVideoId host_parser (videoUrl b) = Normal videoId ->
  videoId <> [] ->
  video_details world videoId = Normal t ->
  is_empty (Str.trim t) = false ->
  chat_request_of number_to_string (request_locale b) (trim_content t) = Normal request ->
  (forall e,
      chat_completions_create world request = Throw e ->
      POST host_parser number_to_string world =
      {| status := 500; content_type := js "application/json";
         body := error_body (js "OpenAI failed: " ++ message e) |}) /\
  (forall c,
      chat_completions_create world request = Normal c ->
      lacks_text c ->
      POST host_parser number_to_string world =
      {| status := 500; content_type := js "application/json";
         body := error_body (js "Failed to generate summary") |}).
Proof.
  intros Hb Hid Hne Ht Hblank Hreq.
  pose proof (handle_with_content b videoId t Hb Hid Hne Ht Hblank) as Hh.
  split.
  - intros e He. apply POST_of_handle. rewrite Hh. unfold summarize.
    rewrite Hreq. cbn [bind]. rewrite He. unfold bind, try_catch.
    apply f_equal. apply json_response_error.
  - intros c Hc Hlacks. apply POST_of_handle. rewrite Hh. unfold summarize.
    rewrite Hreq. cbn [bind]. rewrite Hc. unfold bind, try_catch.
    destruct (lacks_text_content c Hlacks) as [Hn|Hn]; rewrite Hn;
      apply f_equal; apply json_response_error.
Qed.

Lemma firstn_length_exact (n : nat) (t : jsstring) :
  (n <= List.length t)%nat -> List.length (firstn n t) = n.
Proof. intro H. rewrite length_firstn. lia. Qed.

(** The request built for a locale and a text holds the text after the
    prompt of the locale, in the user message. *)
Lemma chat_request_user_message (loc : jsval) (text : jsstring) (request : chat_request) :
  chat_request_of number_to_string loc text = Normal request ->
  exists prefix,
    user_prompt_prefix number_to_string loc = Normal prefix /\
    In {| role := js "user"; prompt := Text (prefix ++ text) |} (messages request).
Proof.
  unfold chat_request_of, build_messages. intro H.
  destruct (system_prompt number_to_string loc) as [sp|e]; [|discriminate H].
  cbn [bind] in H.
  destruct (user_prompt_prefix number_to_string loc) as [prefix|e]; [|discriminate H].
  cbn [bind] in H. injection H as <-. exists prefix. split; [reflexivity|].
  right. left. reflexivity.
Qed.

(** C9: a text longer than 60,000 characters is cut to its first 60,000
    characters, and a text of at most 60,000 characters is left as it is;
    the result is what the summarization call receives, after the prompt
    of the locale, in the user message. *)
Theorem content_is_cut_at_60000 (t : jsstring) :
  ((Str.length t > 60000)%Z ->
   trim_content t = firstn (Z.to_nat 60000) t /\
   Str.length (trim_content t) = 60000%Z /\
   exists rest, t = trim_content t ++ rest) /\
  ((Str.length t <= 60000)%Z -> trim_content t = t) /\
  (forall loc request,
      chat_request_of number_to_string loc (trim_content t) = Normal request ->
      exists prefix,
        user_prompt_prefix number_to_string loc = Normal prefix /\
        In {| role := js "user"; prompt := Text (prefix ++ trim_content t) |}
           (messages request)) /\
  (forall b videoId,
      req_json world = Normal b ->
      extractYouTubeVideoId host_parser (videoUrl b) = Normal videoId ->
      videoId <> [] ->
      video_details world videoId = Normal t ->
      is_empty (Str.trim t) = false ->
      handle host_parser number_to_string world =
      try_catch
        (request <- chat_request_of number_to_string (request_locale b) (trim_content t) ;;
         completion <- chat_completions_create world request ;;
         match completion_content completion with
         | Some (c :: s) => Normal (json_response 200 [(js "summary", VString (c :: s))])
         | _ => Normal (json_response 500
                          [(js "error", VString (js "Failed to generate summary"))])
         end)%js
        (fun openaiError =>
           Normal (json_response 500
                     [(js "error",
                       VString (js "OpenAI failed: " ++ message openaiError))]))).
Proof.
  split; [|split; [|split]].
  - intro Hlong. unfold trim_content.
    destruct (Str.length t >? 60000)%Z eqn:E; [|lia].
    unfold Str.substring0. split; [reflexivity|]. split.
    + unfold Str.length in *. rewrite firstn_length_exact; lia.
    + exists (skipn (Z.to_nat 60000) t). symmetry. apply firstn_skipn.
  - intro Hshort. unfold trim_content.
    destruct (Str.length t >? 60000)%Z eqn:E; [lia|reflexivity].
  - intros loc request. apply chat_request_user_message.
  - intros b videoId Hb Hid Hne Ht Hblank.
    exact (handle_with_content b videoId t Hb Hid Hne Ht Hblank).
Qed.

End HandlerClaims.


(* ================================================================= *)
(** ** The URL shapes, and further properties of the extractor *)

Lemma includes_cons (c : N) (s m : jsstring) :
  Str.includes (c :: s) m = Str.starts_with m (c :: s) || Str.includes s m.
Proof. reflexivity. Qed.

Lemma starts_with_prefix (m s : jsstring) :
  Str.starts_with m s = true -> exists rest, s = m ++ rest.
Proof.
  revert s. induction m as [|c m IH]; intros s H.
  - exists s. reflexivity.
  - destruct s as [|d s]; [discriminate H|].
    cbn [Str.starts_with] in H. apply andb_true_iff in H as [Hc Hm].
    apply N.eqb_eq in Hc. subst d. destruct (IH s Hm) as [rest ->].
    exists rest. reflexivity.
Qed.

Lemma starts_with_refl (m : jsstring) : Str.starts_with m m = true.
Proof.
  pose proof (starts_with_app_self m []) as H. rewrite app_nil_r in H. exact H.
Qed.

(** A string that includes [m] splits at the first occurrence of [m]. *)
Lemma includes_first_occurrence (m s : jsstring) :
  m <> [] -> Str.includes s m = true ->
  exists pre rest, s = pre ++ m ++ rest /\ first_at_end m pre = true.
Proof.
  intro Hm. induction s as [|c s IH]; intro H.
  - destruct m; [congruence | discriminate H].
  - rewrite includes_cons in H.
    destruct (Str.starts_with m (c :: s)) eqn:E.
    + destruct (starts_with_prefix m (c :: s) E) as [rest Hr].
      exists [], rest. split; [exact Hr | reflexivity].
    + cbn [orb] in H. destruct (IH H) as [pre [rest [-> Hf]]].
      exists (c :: pre), rest. split; [reflexivity|].
      cbn [first_at_end]. rewrite Hf, andb_true_r. apply negb_true_iff.
      rewrite <- E. rewrite app_comm_cons, app_assoc. symmetry.
      apply starts_with_app_long. rewrite length_app. cbn [List.length]. lia.
Qed.

(** Without an occurrence of the separator there is one piece. *)
Lemma split_without (m s : jsstring) (k : nat) :
  Str.includes s m = false -> exists p, Str.split_from m k s = [p].
Proof.
  revert k. induction s as [|c s IH]; intros k H.
  - exists []. reflexivity.
  - rewrite includes_cons in H. apply orb_false_iff in H as [H1 H2].
    destruct k as [|k].
    + rewrite split_from_0, H1. destruct (IH 0%nat H2) as [p ->]. eexists. reflexivity.
    + cbn [Str.split_from]. apply IH, H2.
Qed.

(** A match of [p] at the start of [x ++ t] lies within [x], or [x] is a
    prefix of [p] and the rest of [p] starts [t]. *)
Lemma starts_with_app_cases (p x t : jsstring) :
  Str.starts_with p (x ++ t) = true ->
  Str.starts_with p x = true \/
  exists p2, p = x ++ p2 /\ Str.starts_with p2 t = true.
Proof.
  revert x. induction p as [|a p IH]; intros x H.
  - left. reflexivity.
  - destruct x as [|b x].
    + right. exists (a :: p). split; [reflexivity | exact H].
    + rewrite <- app_comm_cons in H. cbn [Str.starts_with] in H.
      apply andb_true_iff in H as [Hab H]. apply N.eqb_eq in Hab. subst b.
      destruct (IH x H) as [L|[p2 [-> L]]].
      * left. cbn [Str.starts_with]. rewrite N.eqb_refl. exact L.
      * right. exists p2. split; [reflexivity | exact L].
Qed.

(** A marker whose first character is unique cannot overlap itself. *)
Lemma no_overlap (m x : jsstring) :
  head_unique m = true -> x <> [] ->
  Str.starts_with m (x ++ m) = true -> Str.starts_with m x = true.
Proof.
  intros Hu Hx H. destruct (starts_with_app_cases m x m H) as [L|[p2 [E L]]]; [exact L|].
  destruct p2 as [|d p2].
  - rewrite app_nil_r in E. subst x. apply starts_with_refl.
  - exfalso. destruct m as [|c r]; [discriminate Hu|]. cbn [head_unique] in Hu.
    apply negb_true_iff in Hu.
    destruct x as [|b x]; [congruence|].
    rewrite <- app_comm_cons in E. injection E as <- Er.
    cbn [Str.starts_with] in L. apply andb_true_iff in L as [Hd _].
    apply N.eqb_eq in Hd. subst d.
    assert (Hin : existsb (N.eqb c) r = true).
    { rewrite Er, existsb_app. cbn [existsb]. rewrite N.eqb_refl.
      apply orb_true_iff. right. reflexivity. }
    congruence.
Qed.

Lemma first_at_end_of_absent (m pre : jsstring) :
  head_unique m = true -> Str.includes pre m = false -> first_at_end m pre = true.
Proof.
  intros Hu. induction pre as [|c pre IH]; intro H; [reflexivity|].
  rewrite includes_cons in H. apply orb_false_iff in H as [H1 H2].
  cbn [first_at_end]. rewrite (IH H2), andb_true_r. apply negb_true_iff.
  destruct (Str.starts_with m ((c :: pre) ++ m)) eqn:E; [|reflexivity].
  rewrite (no_overlap m (c :: pre) Hu ltac:(discriminate) E) in H1. discriminate H1.
Qed.

Lemma path_marker_head_unique (sh : url_shape) :
  sh <> Watch -> head_unique (shape_marker sh) = true.
Proof. intro H. destruct sh; try congruence; vm_compute; reflexivity. Qed.

Lemma short_marker_head_unique : head_unique (js "youtu.be/") = true.
Proof. vm_compute. reflexivity. Qed.

Lemma short_link_marker : js "youtu.be/" <> [].
Proof. vm_compute. discriminate. Qed.

Lemma markers_nonempty :
  js "youtu.be/" <> [] /\ js "youtube.com/v/" <> [] /\ js "youtube.com/embed/" <> [].
Proof. repeat split; vm_compute; discriminate. Qed.

Lemma dispatch_markers_shape :
  forallb (fun m => no_delimiter m && has_non_id m) dispatch_markers = true.
Proof. vm_compute. reflexivity. Qed.

(** No marker occurs in a run of identifier characters. *)
Lemma includes_id_run (m x : jsstring) :
  no_delimiter m = true -> has_non_id m = true ->
  forallb Regex.id_class x = true ->
  Str.includes x m = false.
Proof.
  intros Hd Hn. induction x as [|c x IH]; intro Hx.
  - destruct m; [discriminate Hn | reflexivity].
  - rewrite includes_cons.
    pose proof (starts_with_in_id_run m (c :: x) [] Hd Hn Hx (or_introl eq_refl)) as E.
    rewrite app_nil_r in E. rewrite E.
    cbn [forallb] in Hx. apply andb_true_iff in Hx as [_ Hx]. exact (IH Hx).
Qed.

Lemma identifier_no_marker (id : jsstring) :
  forallb Regex.id_class id = true -> no_marker id.
Proof.
  intro H. pose proof dispatch_markers_shape as S.
  unfold dispatch_markers in S. cbn [forallb] in S.
  repeat (apply andb_true_iff in S as [?S S]).
  repeat match goal with
         | X : no_delimiter _ && has_non_id _ = true |- _ =>
             apply andb_true_iff in X as [? ?]
         end.
  repeat split; apply includes_id_run; assumption.
Qed.

Lemma match_id_identifier (id : jsstring) :
  Regex.test_id id = true -> Regex.match_id id = Some id.
Proof.
  intro H. pose proof H as T. unfold Regex.test_id in T.
  apply andb_true_iff in T as [Hl Hc]. apply Nat.eqb_eq in Hl.
  assert (F : firstn 11 id = id) by (rewrite <- Hl; apply firstn_all).
  destruct id as [|c id]; [discriminate Hl|].
  rewrite match_id_cons. unfold Regex.eleven_here.
  rewrite F, Hc, Hl. reflexivity.
Qed.

(** The first piece of a split is a prefix of the string. *)
Lemma split_from_head_prefix (m s : jsstring) :
  exists b, s = hd [] (Str.split_from m 0 s) ++ b.
Proof.
  induction s as [|c s [b IH]].
  - exists []. reflexivity.
  - rewrite split_from_0. destruct (Str.starts_with m (c :: s)).
    + exists (c :: s). reflexivity.
    + rewrite hd_cons_head. exists b. rewrite <- app_comm_cons, <- IH. reflexivity.
Qed.

Lemma split_class_head_prefix (p : N -> bool) (s : jsstring) :
  exists b, s = hd [] (Str.split_class p s) ++ b.
Proof.
  induction s as [|c s [b IH]].
  - exists []. reflexivity.
  - cbn [Str.split_class]. destruct (p c).
    + exists (c :: s). reflexivity.
    + rewrite hd_cons_head. exists b. rewrite <- app_comm_cons, <- IH. reflexivity.
Qed.

Lemma validate_occurs (v s : jsstring) : occurs_in v s -> occurs_in (validate v) s.
Proof.
  intro H. destruct (validate_cases v) as [E|[E _]]; rewrite E; [|exact H].
  exists [], s. reflexivity.
Qed.

Lemma after_marker_occurs (url m : jsstring) :
  m <> [] -> Str.includes url m = true -> occurs_in (after_marker url m []) url.
Proof.
  intros Hm H. destruct (includes_first_occurrence m url Hm H) as [pre [rest [-> Hf]]].
  unfold after_marker. rewrite (split_after_prefix m pre rest Hm Hf).
  unfold Str.split. destruct (Str.split_from m 0 rest) as [|p ps] eqn:E.
  - exfalso. exact (split_from_nonempty m 0 rest E).
  - destruct (split_from_head_prefix m rest) as [b Hb]. rewrite E in Hb. cbn [hd] in Hb.
    destruct (split_class_head_prefix Regex.delimiter_class p) as [b' Hb'].
    exists (pre ++ m), (b' ++ b). rewrite Hb at 1. rewrite Hb' at 1.
    rewrite <- !app_assoc. reflexivity.
Qed.

Lemma match_id_occurs (s w : jsstring) : Regex.match_id s = Some w -> occurs_in w s.
Proof.
  intro H. pose proof (match_id_leftmost s) as L. rewrite H in L.
  destruct L as [i [[Hw _] _]]. subst w.
  exists (firstn i s), (skipn 11 (skipn i s)).
  rewrite (firstn_skipn 11 (skipn i s)), firstn_skipn. reflexivity.
Qed.

Lemma test_url_holds_its_identifier : occurs_in (js "QiZ62yswdPw") test_url.
Proof.
  exists (js "https://youtu.be/"), (js "?si=IHWvSDSvLUQXqYpm"). vm_compute. reflexivity.
Qed.

(** X10: the test [parts.length > 1] of the three split branches repeats
    the test [includes] of the branch: a string that includes the
    separator splits into at least two pieces, and a string that does not
    stays in one piece. *)
Theorem length_guard_always_holds (url m : jsstring) :
  m <> [] ->
  (Str.includes url m = true ->
   exists before part1 more, Str.split url m = before :: part1 :: more) /\
  (Str.includes url m = false -> exists p, Str.split url m = [p]).
Proof.
  intro Hm. split.
  - intro H. destruct (includes_first_occurrence m url Hm H) as [pre [rest [-> Hf]]].
    rewrite (split_after_prefix m pre rest Hm Hf).
    unfold Str.split. destruct (Str.split_from m 0 rest) as [|p ps] eqn:E.
    + exfalso. exact (split_from_nonempty m 0 rest E).
    + eauto.
  - intro H. apply split_without, H.
Qed.

(** X9: the URL constructor is consulted in the watch branch only: for a
    string that includes [youtu.be/], or does not include
    [youtube.com/watch], the result is the same whatever the constructor
    accepts. *)
Theorem parser_only_used_for_watch (hp1 hp2 : bool -> jsstring -> bool) (s : jsstring) :
  Str.includes s (js "youtu.be/") = true \/ Str.includes s (js "youtube.com/watch") = false ->
  extractYouTubeVideoId hp1 (VString s) = extractYouTubeVideoId hp2 (VString s).
Proof.
  intro H. rewrite !extract_string. destruct s as [|c s]; [reflexivity|].
  destruct (jsstring_eqb (c :: s) test_url); [reflexivity|].
  unfold extract_general, dispatch.
  destruct H as [E|E]; rewrite E; [reflexivity|].
  destruct (Str.includes (c :: s) (js "youtu.be/")); reflexivity.
Qed.

Section ExtractorProperties.

Variable host_parser : bool -> jsstring -> bool.

Lemma extract_valid_or_empty (v : jsval) :
  exists id, extractYouTubeVideoId host_parser v = Normal id /\
             (id = [] \/ Regex.test_id id = true).
Proof.
  unfold extractYouTubeVideoId.
  destruct (falsy v || typeof_not_string v); [eauto|].
  destruct v as [| |b|x|s|l|f]; eauto.
  destruct (jsstring_eqb s test_url).
  - eexists. split; [reflexivity|]. right. vm_compute. reflexivity.
  - destruct (extract_general_validates host_parser s) as [c Hc].
    rewrite Hc. eexists. split; [reflexivity|].
    destruct (validate_cases c) as [E|[E T]]; [left; exact E|right; rewrite E; exact T].
Qed.

Lemma extract_is_general (s : jsstring) :
  s <> [] -> extractYouTubeVideoId host_parser (VString s) = extract_general host_parser s.
Proof.
  intro Hne. rewrite extract_string. destruct s as [|c s]; [congruence|].
  destruct (jsstring_eqb (c :: s) test_url) eqn:E; [|reflexivity].
  apply jsstring_eqb_eq in E. rewrite E. symmetry. apply extract_general_test_url.
Qed.

Lemma bare_identifier (id : jsstring) :
  Regex.test_id id = true ->
  extractYouTubeVideoId host_parser (VString id) = Normal id.
Proof.
  intro H. pose proof H as T. unfold Regex.test_id in T.
  apply andb_true_iff in T as [Hl Hc].
  assert (Hne : id <> []) by (intros ->; discriminate Hl).
  rewrite (extract_fallback host_parser id Hne (identifier_no_marker id Hc)).
  rewrite (match_id_identifier id H). reflexivity.
Qed.

(** X8: a bare video identifier is extracted as itself, so that extracting
    from a result gives the result again. *)
Theorem extract_is_idempotent :
  (forall id, is_video_identifier id ->
              extractYouTubeVideoId host_parser (VString id) = Normal id) /\
  (forall url id,
      extractYouTubeVideoId host_parser url = Normal id ->
      extractYouTubeVideoId host_parser (VString id) = Normal id).
Proof.
  split.
  - intros id H. apply bare_identifier, test_id_identifier, H.
  - intros url id H. destruct (extract_valid_or_empty url) as [id' [E [Hv|Hv]]];
      rewrite E in H; injection H as <-.
    + subst id'. reflexivity.
    + apply bare_identifier, Hv.
Qed.

(** The short-link branch reads what follows the first marker. *)
Lemma short_link_form (pre rest : jsstring) :
  first_at_end (js "youtu.be/") pre = true ->
  extractYouTubeVideoId host_parser (VString (pre ++ js "youtu.be/" ++ rest)) =
  Normal (validate (hd [] (Str.split_class Regex.delimiter_class
                             (hd [] (Str.split rest (js "youtu.be/")))))).
Proof.
  intro Hf. rewrite extract_is_general.
  - unfold extract_general, dispatch. rewrite includes_app. cbn [try_catch bind].
    unfold after_marker. rewrite (split_after_prefix _ pre rest short_link_marker Hf).
    unfold Str.split. destruct (Str.split_from (js "youtu.be/") 0 rest) as [|p ps] eqn:E.
    + exfalso. exact (split_from_nonempty _ 0 rest E).
    + reflexivity.
  - intro E. apply app_eq_nil in E as [_ E]. apply app_eq_nil in E as [E _].
    exact (short_link_marker E).
Qed.

(** X11: in the short-link branch whatever precedes the first [youtu.be/]
    is ignored: scheme, host and any other text before the marker have no
    influence on the result. *)
Theorem short_link_ignores_what_precedes (pre1 pre2 rest : jsstring) :
  Str.includes pre1 (js "youtu.be/") = false ->
  Str.includes pre2 (js "youtu.be/") = false ->
  extractYouTubeVideoId host_parser (VString (pre1 ++ js "youtu.be/" ++ rest)) =
  extractYouTubeVideoId host_parser (VString (pre2 ++ js "youtu.be/" ++ rest)).
Proof.
  intros H1 H2.
  rewrite (short_link_form pre1 rest
             (first_at_end_of_absent _ _ short_marker_head_unique H1)).
  rewrite (short_link_form pre2 rest
             (first_at_end_of_absent _ _ short_marker_head_unique H2)).
  reflexivity.
Qed.

Lemma dispatch_path_any_prefix (pre : jsstring) (sh : url_shape) (id tl : jsstring) :
  sh <> Watch ->
  is_video_identifier id ->
  trailing_content sh tl ->
  Str.includes pre (shape_marker sh) = false ->
  Forall (fun m => Str.includes (pre ++ shape_marker sh ++ id ++ tl) m = false)
         (earlier_markers sh) ->
  dispatch host_parser (pre ++ shape_marker sh ++ id ++ tl) = Normal id.
Proof.
  intros Hsh Hid Htl Hpre Hearlier.
  destruct (identifier_chars id Hid) as [Hc Hne].
  destruct (path_marker_facts sh Hsh) as (M1 & M2 & M3).
  pose proof (after_marker_path pre (shape_marker sh) id tl M1
                (first_at_end_of_absent _ _ (path_marker_head_unique sh Hsh) Hpre)
                M2 M3 Hc (trailing_ends_id sh tl Hsh Htl)) as Hpath.
  pose proof (includes_app pre (shape_marker sh) (id ++ tl)) as Hin.
  destruct sh; [|congruence| |].
  - rewrite marker_short in *. unfold dispatch. cbv zeta. rewrite Hin, Hpath. reflexivity.
  - rewrite earlier_old in Hearlier. rewrite marker_old in *.
    pose proof (Forall_inv Hearlier) as H1.
    pose proof (Forall_inv (Forall_inv_tail Hearlier)) as H2.
    cbv beta in H1, H2.
    unfold dispatch. cbv zeta. rewrite H1, H2, Hin, Hpath. reflexivity.
  - rewrite earlier_embed in Hearlier. rewrite marker_embed in *.
    pose proof (Forall_inv Hearlier) as H1.
    pose proof (Forall_inv (Forall_inv_tail Hearlier)) as H2.
    pose proof (Forall_inv (Forall_inv_tail (Forall_inv_tail Hearlier))) as H3.
    cbv beta in H1, H2, H3.
    unfold dispatch. cbv zeta. rewrite H1, H2, H3, Hin, Hpath. reflexivity.
Qed.

(** C1, as the code has it: for a string of one of the four shapes whose
    identifier is 11 characters of the alphabet, followed by nothing or by
    query or fragment content, the result is exactly the identifier,
    provided that the string holds no marker that the dispatch tests
    before the one of its shape, and that what stands before the marker
    leads to it: in a path shape any text without the marker of the shape
    (no scheme and no host is checked), in the watch shape [http://] or
    [https://] and the start of a host name that the URL constructor
    accepts. *)
Theorem extract_recognized_shape (before : jsstring) (sh : url_shape)
        (id trailing : jsstring) :
  is_video_identifier id ->
  trailing_content sh trailing ->
  leads_to_marker host_parser sh before ->
  Forall (fun m => Str.includes (shaped_url before sh id trailing) m = false)
         (earlier_markers sh) ->
  extractYouTubeVideoId host_parser (VString (shaped_url before sh id trailing)) = Normal id.
Proof.
  intros Hid Htl Hlead Hearlier.
  assert (Hne : shaped_url before sh id trailing <> []).
  { unfold shaped_url. intro E. apply app_eq_nil in E as [_ E].
    apply app_eq_nil in E as [E _]. destruct sh; vm_compute in E; discriminate E. }
  rewrite (extract_is_general _ Hne). unfold extract_general.
  assert (D : dispatch host_parser (shaped_url before sh id trailing) = Normal id).
  { destruct Hlead as [sh before Hsh Hbefore | sc sub Hsub Hhost].
    - exact (dispatch_path_any_prefix before sh id trailing Hsh Hid Htl Hbefore Hearlier).
    - exact (dispatch_watch host_parser sc sub id trailing Hid Htl Hearlier Hsub Hhost). }
  rewrite D. cbn [try_catch bind]. rewrite validate_identifier; [reflexivity|].
  apply test_id_identifier, Hid.
Qed.

(** X12: the three path shapes are recognized after any text: when the
    marker of the shape is followed by an identifier and by nothing or a
    delimiter, the identifier is returned whatever precedes the marker,
    provided the preceding text does not hold that marker and the string
    holds no marker tested earlier. *)
Theorem path_shape_after_any_prefix (pre : jsstring) (sh : url_shape) (id tl : jsstring) :
  sh <> Watch ->
  is_video_identifier id ->
  trailing_content sh tl ->
  Str.includes pre (shape_marker sh) = false ->
  Forall (fun m => Str.includes (pre ++ shape_marker sh ++ id ++ tl) m = false)
         (earlier_markers sh) ->
  extractYouTubeVideoId host_parser (VString (pre ++ shape_marker sh ++ id ++ tl)) = Normal id.
Proof.
  intros Hsh Hid Htl Hpre Hearlier.
  destruct (path_marker_facts sh Hsh) as (M1 & _).
  rewrite extract_is_general.
  - unfold extract_general.
    rewrite (dispatch_path_any_prefix pre sh id tl Hsh Hid Htl Hpre Hearlier).
    cbn [try_catch bind]. rewrite validate_identifier; [reflexivity|].
    apply test_id_identifier, Hid.
  - intro E. apply app_eq_nil in E as [_ E]. apply app_eq_nil in E as [E _].
    exact (M1 E).
Qed.

(** X13: outside the watch branch the extractor invents nothing: the
    result occurs in the input as a contiguous substring.  (In the watch
    branch the value of [v] is percent-decoded, and need not occur.) *)
Theorem result_occurs_in_input (s id : jsstring) :
  Str.includes s (js "youtu.be/") = true \/ Str.includes s (js "youtube.com/watch") = false ->
  extractYouTubeVideoId host_parser (VString s) = Normal id ->
  occurs_in id s.
Proof.
  intros Hbranch H. rewrite extract_string in H.
  destruct s as [|c s]; [injection H as <-; exists [], []; reflexivity|].
  destruct (jsstring_eqb (c :: s) test_url) eqn:T.
  - injection H as <-. apply jsstring_eqb_eq in T. rewrite T.
    apply test_url_holds_its_identifier.
  - destruct markers_nonempty as (M1 & M2 & M3).
    unfold extract_general, dispatch in H.
    destruct (Str.includes (c :: s) (js "youtu.be/")) eqn:E1.
    + cbn [try_catch bind] in H. injection H as <-.
      apply validate_occurs, after_marker_occurs; assumption.
    + destruct Hbranch as [Hb|Hb]; [discriminate Hb|]. rewrite Hb in H.
      destruct (Str.includes (c :: s) (js "youtube.com/v/")) eqn:E3.
      * cbn [try_catch bind] in H. injection H as <-.
        apply validate_occurs, after_marker_occurs; assumption.
      * destruct (Str.includes (c :: s) (js "youtube.com/embed/")) eqn:E4.
        -- cbn [try_catch bind] in H. injection H as <-.
           apply validate_occurs, after_marker_occurs; assumption.
        -- destruct (Regex.match_id (c :: s)) as [w|] eqn:Em;
             cbn [try_catch bind] in H; injection H as <-; apply validate_occurs.
           ++ apply match_id_occurs, Em.
           ++ exists [], (c :: s). reflexivity.
Qed.

End ExtractorProperties.

(* ================================================================= *)
(** ** Further properties of the handler *)

Lemma header_bracket : js "[Video title: " = ch "[" :: js "Video title: ".
Proof. vm_compute. reflexivity. Qed.

Lemma trim_keeps_head (c : N) (r : jsstring) :
  Str.is_white_space c = false -> is_empty (Str.trim (c :: r)) = false.
Proof.
  intro H. unfold Str.trim. cbn [Str.drop_while]. rewrite H.
  rewrite (drop_while_end_cons _ c r H). reflexivity.
Qed.

(** A synthesized ContentSource is never blank: it starts with a bracket. *)
Lemma content_source_not_blank (t : option jsstring) (d : jsstring) :
  is_empty (Str.trim (content_source t d)) = false.
Proof.
  unfold content_source. rewrite header_bracket, <- app_comm_cons.
  apply trim_keeps_head. vm_compute. reflexivity.
Qed.

(** X7: the two prompt tables fall back where the message table does not:
    for a locale whose property key is neither [ko] nor [en] nor the name
    of an inherited member, the summarization call receives the generic
    system prompt and the generic instruction before the text. *)
Theorem unknown_locale_uses_generic_prompts (number_to_string : spec_float -> jsstring)
        (loc : jsval) (k t : jsstring) :
  to_property_key number_to_string loc = Normal k ->
  unknown_key k ->
  chat_request_of number_to_string loc t =
  Normal
    {| messages :=
         [ {| role := js "system";
              prompt := Text (js "You are a helpful video summarizer.") |};
           {| role := js "user";
              prompt := Text (js "Please summarize this content: " ++ t) |} ];
       model := js "gpt-4o";
       max_tokens := 2000;
       temperature_tenths := 7 |}.
Proof.
  intros Hk (Hko & Hen & Hproto).
  rewrite (chat_request_of_key number_to_string loc k t Hk).
  unfold request_for_key, get_property, systemPrompts, userPrompts, own_property.
  rewrite (jsstring_eqb_neq (js "ko") k) by congruence.
  rewrite (jsstring_eqb_neq (js "en") k) by congruence.
  rewrite (not_inherited k Hproto). reflexivity.
Qed.

Section HandlerProperties.

Variable host_parser : bool -> jsstring -> bool.
Variable number_to_string : spec_float -> jsstring.
Variable world : services.

Lemma video_details_total (videoId : jsstring) :
  exists t, video_details world videoId = Normal t.
Proof.
  destruct (video_details_cases world videoId) as [E|[r E]]; eauto.
Qed.

Lemma noTranscript_cases (loc : jsval) :
  (exists v, noTranscript_message number_to_string loc = Normal v) \/
  (exists e, noTranscript_message number_to_string loc = Throw e).
Proof.
  destruct (noTranscript_message number_to_string loc); eauto.
Qed.

Lemma summarize_total (loc : jsval) (t : jsstring) :
  exists r, summarize number_to_string world loc t = Normal r /\
            (status r = 200%Z \/ status r = 500%Z) /\
            content_type r = js "application/json".
Proof.
  unfold summarize.
  destruct (chat_request_of number_to_string loc t) as [request|e]; cbn [bind try_catch].
  - destruct (chat_completions_create world request) as [c|e]; cbn [bind try_catch].
    + destruct (completion_content c) as [[|x s]|]; eexists; (split; [reflexivity|]); auto.
    + eexists. split; [reflexivity|]. auto.
  - eexists. split; [reflexivity|]. auto.
Qed.

(** X1: whatever the request and whatever the two services answer, the
    handler answers with status 200, 400 or 500 and declares a JSON
    body. *)
Theorem response_status_and_type :
  (status (POST host_parser number_to_string world) = 200%Z \/
   status (POST host_parser number_to_string world) = 400%Z \/
   status (POST host_parser number_to_string world) = 500%Z) /\
  content_type (POST host_parser number_to_string world) = js "application/json".
Proof.
  unfold POST.
  destruct (req_json world) as [b|e] eqn:Hb.
  - destruct (extract_valid_or_empty host_parser (videoUrl b)) as [id [Hid _]].
    rewrite (handle_unfold host_parser number_to_string world b id Hb Hid).
    destruct (is_empty id).
    + auto.
    + destruct (video_details_total id) as [t Ht]. rewrite Ht. cbn [bind].
      destruct (is_empty (Str.trim t)).
      * destruct (noTranscript_cases (request_locale b))
          as [[v Hv]|[e Hv]]; rewrite Hv; cbn [bind]; auto.
      * destruct (summarize_total (request_locale b) (trim_content t))
          as [r [Hr [Hs Hc]]].
        rewrite Hr. split; [tauto|exact Hc].
  - unfold handle. rewrite Hb. cbn [bind]. auto.
Qed.

(** X2: when the request reaches the summarization call and the call
    answers a non-empty text, the handler answers HTTP 200 with that text
    as [summary]. *)
Theorem success_is_200 (b : request_body) (videoId t : jsstring)
        (request : chat_request) (c : option chat_completion) (summary : jsstring) :
  req_json world = Normal b ->
  extractYouTubeVideoId host_parser (videoUrl b) = Normal videoId ->
  videoId <> [] ->
  video_details world videoId = Normal t ->
  is_empty (Str.trim t) = false ->
  chat_request_of number_to_string (request_locale b) (trim_content t) = Normal request ->
  chat_completions_create world request = Normal c ->
  completion_content c = Some summary ->
  summary <> [] ->
  POST host_parser number_to_string world =
  {| status := 200; content_type := js "application/json";
     body := VObject [(js "summary", VString summary)] |}.
Proof.
  intros Hb Hid Hne Ht Hblank Hreq Hc Hcontent Hsummary. apply POST_of_handle.
  rewrite (handle_with_content host_parser number_to_string world b videoId t
             Hb Hid Hne Ht Hblank).
  unfold summarize. rewrite Hreq. cbn [bind]. rewrite Hc. cbn [bind]. rewrite Hcontent.
  destruct summary as [|x summary]; [congruence|]. cbn [try_catch].
  apply f_equal. apply json_response_one.
Qed.

(** X3: a request body that cannot be read is answered HTTP 500, with the
    message of the error, or with "An unexpected error occurred" when that
    message is empty. *)
Theorem malformed_body_is_500 (e : jserror) :
  req_json world = Throw e ->
  POST host_parser number_to_string world =
  {| status := 500; content_type := js "application/json";
     body := error_body (match message e with
                         | [] => js "An unexpected error occurred"
                         | _ => message e
                         end) |}.
Proof.
  intro H. unfold POST, handle. rewrite H. cbn [bind].
  apply json_response_error.
Qed.

(** X4: an HTTP 200 answer is given only when everything succeeded: the
    body was read, a video identifier was extracted from it, the metadata
    gave a text that is not blank, and the summarization call answered a
    non-empty text, which is the [summary] of the body. *)
Theorem success_characterised :
  status (POST host_parser number_to_string world) = 200%Z ->
  exists b videoId t request c summary,
    req_json world = Normal b /\
    extractYouTubeVideoId host_parser (videoUrl b) = Normal videoId /\
    is_video_identifier videoId /\
    video_details world videoId = Normal t /\
    is_empty (Str.trim t) = false /\
    chat_request_of number_to_string (request_locale b) (trim_content t) = Normal request /\
    chat_completions_create world request = Normal c /\
    completion_content c = Some summary /\
    summary <> [] /\
    body (POST host_parser number_to_string world) = VObject [(js "summary", VString summary)].
Proof.
  unfold POST.
  destruct (req_json world) as [b|e] eqn:Hb.
  - destruct (extract_valid_or_empty host_parser (videoUrl b)) as [id [Hid Hvalid]].
    rewrite (handle_unfold host_parser number_to_string world b id Hb Hid).
    destruct id as [|i0 id].
    + cbn [is_empty]. intro H. discriminate H.
    + cbn [is_empty]. destruct Hvalid as [Hv|Hv]; [discriminate Hv|].
      destruct (video_details_total (i0 :: id)) as [t Ht]. rewrite Ht. cbn [bind].
      destruct (is_empty (Str.trim t)) eqn:Hblank.
      * destruct (noTranscript_cases (request_locale b))
          as [[v Hv']|[e Hv']]; rewrite Hv'; cbn [bind]; intro H; discriminate H.
      * unfold summarize.
        destruct (chat_request_of number_to_string (request_locale b) (trim_content t))
          as [request|e] eqn:Hreq; cbn [bind try_catch]; [|intro H; discriminate H].
        destruct (chat_completions_create world request) as [c|e] eqn:Hc;
          cbn [bind try_catch].
        -- destruct (completion_content c) as [[|x s]|] eqn:Hcc; cbn [try_catch];
             try (intro H; discriminate H).
           intros _. exists b, (i0 :: id), t, request, c, (x :: s).
           repeat (split; [first [assumption | reflexivity | discriminate
                                 | apply test_id_identifier, Hv]|]).
           reflexivity.
        -- intro H. discriminate H.
  - unfold handle. rewrite Hb. cbn [bind]. intro H. discriminate H.
Qed.

(** X6: a video with a description is always summarized: the text is the
    title line, an empty line and the description, and it passes the test
    for blank text even when the description is white space only. *)
Theorem described_video_is_summarized (b : request_body) (videoId : jsstring)
        (r : videos_response) (sn : video_snippet) (d : jsstring) :
  req_json world = Normal b ->
  extractYouTubeVideoId host_parser (videoUrl b) = Normal videoId ->
  videoId <> [] ->
  youtube_videos world videoId = Normal r ->
  response_snippet r = Some sn ->
  description sn = Some d ->
  d <> [] ->
  video_details world videoId = Normal (content_source (title sn) d) /\
  handle host_parser number_to_string world =
  summarize number_to_string world (request_locale b)
    (trim_content (content_source (title sn) d)).
Proof.
  intros Hb Hid Hne Hr Hsn Hd Hdne.
  assert (Ht : video_details world videoId = Normal (content_source (title sn) d)).
  { unfold video_details. rewrite Hr. cbn [bind]. unfold response_snippet in Hsn.
    destruct (data r) as [dt|]; [|discriminate Hsn]. cbn [bind].
    destruct (items dt) as [[|it its]|]; try discriminate Hsn. cbn [bind].
    rewrite Hsn, Hd. destruct d as [|c d]; [congruence|].
    unfold content_source. reflexivity. }
  split; [exact Ht|].
  apply (handle_with_content host_parser number_to_string world b videoId _ Hb Hid Hne Ht).
  apply content_source_not_blank.
Qed.

End HandlerProperties.

(** X5: the metadata service is called with video identifiers only: two
    worlds that differ only in what the metadata service would answer for
    strings that are not video identifiers get the same answer. *)
Theorem metadata_called_with_identifiers_only
        (host_parser : bool -> jsstring -> bool)
        (number_to_string : spec_float -> jsstring) (w1 w2 : services) :
  req_json w1 = req_json w2 ->
  (forall r, chat_completions_create w1 r = chat_completions_create w2 r) ->
  (forall id, is_video_identifier id -> youtube_videos w1 id = youtube_videos w2 id) ->
  POST host_parser number_to_string w1 = POST host_parser number_to_string w2.
Proof.
  intros Hreq Hchat Hyt. unfold POST.
  assert (E : handle host_parser number_to_string w1 = handle host_parser number_to_string w2);
    [|rewrite E; reflexivity].
  unfold handle. rewrite Hreq. destruct (req_json w2) as [b|e]; [|reflexivity].
  cbn [bind].
  destruct (extract_valid_or_empty host_parser (videoUrl b)) as [id [Hid Hvalid]].
  rewrite Hid. cbn [bind].
  destruct id as [|i0 id]; [reflexivity|]. cbn [is_empty].
  destruct Hvalid as [Hv|Hv]; [discriminate Hv|].
  assert (D : video_details w1 (i0 :: id) = video_details w2 (i0 :: id)).
  { unfold video_details. rewrite (Hyt _ (proj1 (test_id_identifier _) Hv)). reflexivity. }
  rewrite D. destruct (video_details w2 (i0 :: id)) as [t|e]; [|reflexivity].
  cbn [bind]. destruct (is_empty (Str.trim t)); [reflexivity|].
  unfold summarize.
  match goal with
  | |- context [chat_request_of ?n ?l ?x] => destruct (chat_request_of n l x) as [request|e]
  end; [|reflexivity].
  cbn [bind]. rewrite Hchat. reflexivity.
Qed.

(* ================================================================= *)
(** ** The request configuration *)

Lemma ko_nonempty : js "ko" <> [].
Proof. vm_compute. discriminate. Qed.

(** X14: the configuration reports the locale whose bundle it loaded: the
    tag of the request when it has one, and otherwise [ko], the default of
    the handler; a bundle that cannot be loaded makes the configuration
    fail with the same error. *)
Theorem bundle_matches_locale (M : Type) (import_default : jsstring -> completion M)
        (requested : option jsstring) :
  (forall cfg,
      I18n.getRequestConfig M import_default requested = Normal cfg ->
      I18n.locale cfg <> [] /\
      import_default (js "../messages/" ++ I18n.locale cfg ++ js ".json")
      = Normal (I18n.messages cfg) /\
      (forall c l, requested = Some (c :: l) -> I18n.locale cfg = c :: l) /\
      (requested = None \/ requested = Some [] ->
       forall b, locale b = VUndefined -> VString (I18n.locale cfg) = request_locale b)) /\
  (forall e,
      import_default (js "../messages/" ++ I18n.or_default requested ++ js ".json")
      = Throw e ->
      I18n.getRequestConfig M import_default requested = Throw e).
Proof.
  unfold I18n.getRequestConfig. cbv zeta. split.
  - intros cfg H.
    destruct (import_default (js "../messages/" ++ I18n.or_default requested ++ js ".json"))
      as [m|e] eqn:E; cbn [bind] in H; [|discriminate H].
    injection H as <-. cbn [I18n.locale I18n.messages].
    split; [|split; [exact E|split]].
    + destruct requested as [[|c l]|]; try exact ko_nonempty. discriminate.
    + intros c l ->. reflexivity.
    + intros [->| ->] b Hb; unfold request_locale; rewrite Hb; reflexivity.
  - intros e E. rewrite E. reflexivity.
Qed.

(* ================================================================= *)
(** ** The claims on concrete requests *)

(** Scenario 1 of the specification: the example URL, with the shortcut
    and without it. *)
Example scenario_1 :
  extractYouTubeVideoId Url.plain_domain
    (VString (js "https://youtu.be/QiZ62yswdPw?si=IHWvSDSvLUQXqYpm"))
  = Normal (js "QiZ62yswdPw") /\
  extract_without_shortcut Url.plain_domain
    (VString (js "https://youtu.be/QiZ62yswdPw?si=IHWvSDSvLUQXqYpm"))
  = Normal (js "QiZ62yswdPw").
Proof. split; vm_compute; reflexivity. Qed.

(** The parameter [v] is found wherever it stands in the query, and a
    percent-encoded character of the value is decoded. *)
Example watch_parameter_order :
  extractYouTubeVideoId Url.plain_domain
    (VString (js "https://www.youtube.com/watch?t=10s&v=dQw4w9%57gXcQ#top"))
  = Normal (js "dQw4w9WgXcQ").
Proof. vm_compute. reflexivity. Qed.

Lemma rickroll_identifier : is_video_identifier (js "dQw4w9WgXcQ").
Proof. apply test_id_identifier. vm_compute. reflexivity. Defined.

Lemma scenario_2_shape :
  shaped_url (scheme_text Https ++ js "://" ++ js "www.") Watch
    (js "dQw4w9WgXcQ") (js "&t=10s")
  = js "https://www.youtube.com/watch?v=dQw4w9WgXcQ&t=10s".
Proof. vm_compute. reflexivity. Defined.

Lemma scenario_2_leads :
  leads_to_marker Url.plain_domain Watch (scheme_text Https ++ js "://" ++ js "www.").
Proof. apply before_watch; vm_compute; reflexivity. Defined.

(** Scenario 2 of the specification, by the theorem on the shapes. *)
Lemma extract_recognized_shape_witness :
  is_video_identifier (js "dQw4w9WgXcQ") /\
  trailing_content Watch (js "&t=10s") /\
  extractYouTubeVideoId Url.plain_domain
    (VString (shaped_url (scheme_text Https ++ js "://" ++ js "www.") Watch
                (js "dQw4w9WgXcQ") (js "&t=10s")))
  = Normal (js "dQw4w9WgXcQ").
Proof.
  assert (T : trailing_content Watch (js "&t=10s")).
  { right. exists (ch "&"), (js "t=10s"). split; vm_compute; reflexivity. }
  split; [exact rickroll_identifier|]. split; [exact T|].
  apply (extract_recognized_shape Url.plain_domain
           (scheme_text Https ++ js "://" ++ js "www.") Watch
           (js "dQw4w9WgXcQ") (js "&t=10s") rickroll_identifier T scenario_2_leads).
  apply Forall_cons; [vm_compute; reflexivity | apply Forall_nil].
Defined.

(** A URL of the embed shape whose query holds the short-link marker: the
    dispatch takes the short-link branch and finds nothing. *)
Lemma embed_with_short_marker_in_query :
  shaped_url (js "https://www.") Embed (js "dQw4w9WgXcQ") (js "?feature=youtu.be/")
  = js "https://www.youtube.com/embed/dQw4w9WgXcQ?feature=youtu.be/" /\
  is_video_identifier (js "dQw4w9WgXcQ") /\
  trailing_content Embed (js "?feature=youtu.be/") /\
  extractYouTubeVideoId Url.plain_domain
    (VString (js "https://www.youtube.com/embed/dQw4w9WgXcQ?feature=youtu.be/"))
  = Normal [] /\
  extractYouTubeVideoId Url.plain_domain
    (VString (shaped_url (js "https://www.") Embed (js "dQw4w9WgXcQ")
                (js "?feature=youtu.be/")))
  <> Normal (js "dQw4w9WgXcQ").
Proof.
  split; [vm_compute; reflexivity|].
  split; [exact rickroll_identifier|].
  split.
  { right. exists (ch "?"), (js "feature=youtu.be/"). split; vm_compute; reflexivity. }
  split; [vm_compute; reflexivity|].
  vm_compute. discriminate.
Qed.

(** The watch shape is read by the URL constructor, which needs a scheme:
    without one the result is empty.  With a scheme, any host name that
    ends in [youtube.com] will do. *)
Example watch_needs_a_scheme :
  extractYouTubeVideoId Url.plain_domain (VString (js "youtube.com/watch?v=dQw4w9WgXcQ"))
  = Normal [] /\
  extractYouTubeVideoId Url.plain_domain
    (VString (js "https://gaming.youtube.com/watch?v=dQw4w9WgXcQ"))
  = Normal (js "dQw4w9WgXcQ").
Proof. split; vm_compute; reflexivity. Qed.

Lemma extract_result_is_identifier_witness :
  extractYouTubeVideoId Url.plain_domain
    (VString (js "https://www.youtube.com/watch?v=dQw4w9WgXcQ&t=10s"))
  = Normal (js "dQw4w9WgXcQ") /\
  js "dQw4w9WgXcQ" <> [] /\
  is_video_identifier (js "dQw4w9WgXcQ").
Proof.
  assert (E : extractYouTubeVideoId Url.plain_domain
                (VString (js "https://www.youtube.com/watch?v=dQw4w9WgXcQ&t=10s"))
              = Normal (js "dQw4w9WgXcQ")) by (vm_compute; reflexivity).
  assert (Hne : js "dQw4w9WgXcQ" <> []) by (vm_compute; discriminate).
  split; [exact E|]. split; [exact Hne|].
  exact (extract_result_is_identifier Url.plain_domain _ _ E Hne).
Defined.

(** A watch URL without a scheme: the URL constructor throws and the
    extractor returns the empty result. *)
Lemma extract_never_throws_witness :
  Str.includes (js "youtube.com/watch?v=dQw4w9WgXcQ") (js "youtu.be/") = false /\
  Str.includes (js "youtube.com/watch?v=dQw4w9WgXcQ") (js "youtube.com/watch") = true /\
  Url.URL_new Url.plain_domain (js "youtube.com/watch?v=dQw4w9WgXcQ")
  = Throw {| message := js "Invalid URL" |} /\
  extractYouTubeVideoId Url.plain_domain (VString (js "youtube.com/watch?v=dQw4w9WgXcQ"))
  = Normal [].
Proof.
  assert (H1 : Str.includes (js "youtube.com/watch?v=dQw4w9WgXcQ") (js "youtu.be/") = false)
    by (vm_compute; reflexivity).
  assert (H2 : Str.includes (js "youtube.com/watch?v=dQw4w9WgXcQ") (js "youtube.com/watch")
               = true) by (vm_compute; reflexivity).
  assert (H3 : Url.URL_new Url.plain_domain (js "youtube.com/watch?v=dQw4w9WgXcQ")
               = Throw {| message := js "Invalid URL" |}) by (vm_compute; reflexivity).
  split; [exact H1|]. split; [exact H2|]. split; [exact H3|].
  exact (proj2 (proj2 (extract_never_throws Url.plain_domain
                         (VString (js "youtube.com/watch?v=dQw4w9WgXcQ"))))
           _ _ eq_refl H1 H2 H3).
Defined.

Lemma twelve_letters_no_marker : no_marker (js "abcdefghijkl").
Proof. repeat split; vm_compute; reflexivity. Defined.

Lemma twelve_letters_window : window_at (js "abcdefghijkl") 0 (js "abcdefghijk").
Proof.
  split; [vm_compute; reflexivity|].
  apply test_id_identifier. vm_compute. reflexivity.
Defined.

(** A run of twelve identifier characters: the result is its first eleven. *)
Lemma fallback_leftmost_window_witness :
  js "abcdefghijkl" <> [] /\
  no_marker (js "abcdefghijkl") /\
  window_at (js "abcdefghijkl") 0 (js "abcdefghijk") /\
  extractYouTubeVideoId Url.plain_domain (VString (js "abcdefghijkl"))
  = Normal (js "abcdefghijk").
Proof.
  assert (Hne : js "abcdefghijkl" <> []) by (vm_compute; discriminate).
  split; [exact Hne|]. split; [exact twelve_letters_no_marker|].
  split; [exact twelve_letters_window|].
  apply (proj1 (fallback_leftmost_window Url.plain_domain (js "abcdefghijkl")
                  Hne twelve_letters_no_marker) 0%nat (js "abcdefghijk")
           twelve_letters_window).
  intros j w' _. apply Nat.le_0_l.
Defined.

(** The same string has no run of exactly eleven identifier characters,
    and yet an identifier is returned. *)
Lemma run_of_twelve_yields_identifier :
  js "abcdefghijkl" <> [] /\
  no_marker (js "abcdefghijkl") /\
  identifier_runs (js "abcdefghijkl") = [js "abcdefghijkl"] /\
  first_run_of_eleven (js "abcdefghijkl") = None /\
  extractYouTubeVideoId Url.plain_domain (VString (js "abcdefghijkl"))
  = Normal (js "abcdefghijk") /\
  extractYouTubeVideoId Url.plain_domain (VString (js "abcdefghijkl")) <> Normal [].
Proof.
  split; [vm_compute; discriminate|].
  split; [exact twelve_letters_no_marker|].
  split; [vm_compute; reflexivity|].
  split; [vm_compute; reflexivity|].
  split; [vm_compute; reflexivity|].
  vm_compute. discriminate.
Qed.

Lemma short_link_extracted :
  extractYouTubeVideoId Url.plain_domain (VString (js "https://youtu.be/dQw4w9WgXcQ"))
  = Normal (js "dQw4w9WgXcQ").
Proof. vm_compute. reflexivity. Defined.

Lemma rickroll_nonempty : js "dQw4w9WgXcQ" <> [].
Proof. vm_compute. discriminate. Defined.

Lemma empty_url_extracted :
  extractYouTubeVideoId Url.plain_domain (VString (js "")) = Normal [].
Proof. vm_compute. reflexivity. Defined.

(** Scenario 3: the empty [videoUrl]. *)
Lemma no_identifier_is_400_witness :
  status (POST Url.plain_domain integer_to_string
            (example_world (js "") VUndefined metadata_down)) = 400%Z /\
  body (POST Url.plain_domain integer_to_string
          (example_world (js "") VUndefined metadata_down)) =
  VObject [(js "error", VString no_identifier_message); (js "receivedUrl", VString (js ""))].
Proof.
  split.
  - exact (proj1 (proj2 (no_identifier_is_400 Url.plain_domain integer_to_string
                           (example_world (js "") VUndefined metadata_down)
                           {| videoUrl := VString (js ""); locale := VUndefined |}
                           eq_refl empty_url_extracted))).
  - exact (proj1 (proj2 (proj2 (no_identifier_is_400 Url.plain_domain integer_to_string
                                  (example_world (js "") VUndefined metadata_down)
                                  {| videoUrl := VString (js ""); locale := VUndefined |}
                                  eq_refl empty_url_extracted)))
             (js "") eq_refl).
Defined.

(** A request without [videoUrl] yields no identifier, and the body of the
    answer has the error message only: no [receivedUrl] echoes the
    input. *)
Lemma missing_url_is_not_echoed :
  req_json no_url_world = Normal {| videoUrl := VUndefined; locale := VUndefined |} /\
  extractYouTubeVideoId Url.plain_domain VUndefined = Normal [] /\
  POST Url.plain_domain integer_to_string no_url_world =
  {| status := 400; content_type := js "application/json";
     body := VObject [(js "error", VString no_identifier_message)] |} /\
  match body (POST Url.plain_domain integer_to_string no_url_world) with
  | VObject fields => own_property fields (js "receivedUrl") = None
  | _ => False
  end.
Proof.
  split; [reflexivity|]. split; [reflexivity|].
  split; vm_compute; reflexivity.
Qed.

(** Scenario 4: the description is the empty string. *)
Lemma metadata_failure_is_400_witness :
  metadata_unusable (metadata_with (js "Title") [] (js "dQw4w9WgXcQ")) /\
  locale_bundle (VString (js "en")) errorMessages_en /\
  POST Url.plain_domain integer_to_string
    (example_world (js "https://youtu.be/dQw4w9WgXcQ") (VString (js "en"))
       (metadata_with (js "Title") [])) =
  {| status := 400; content_type := js "application/json";
     body := error_body (noTranscript errorMessages_en) |}.
Proof.
  assert (M : metadata_unusable (metadata_with (js "Title") [] (js "dQw4w9WgXcQ"))).
  { apply description_empty. reflexivity. }
  assert (L : locale_bundle (VString (js "en")) errorMessages_en).
  { apply locale_en. vm_compute. reflexivity. }
  split; [exact M|]. split; [exact L|].
  exact (proj2 (metadata_failure_is_400 Url.plain_domain integer_to_string
                  (example_world (js "https://youtu.be/dQw4w9WgXcQ") (VString (js "en"))
                     (metadata_with (js "Title") []))
                  {| videoUrl := VString (js "https://youtu.be/dQw4w9WgXcQ");
                     locale := VString (js "en") |}
                  (js "dQw4w9WgXcQ") eq_refl short_link_extracted rickroll_nonempty M)
           errorMessages_en L).
Defined.

Lemma french_is_unknown : unknown_key (js "fr").
Proof.
  split; [|split]; intro H; vm_compute in H.
  - discriminate H.
  - discriminate H.
  - repeat (destruct H as [H|H]; [discriminate H|]). exact H.
Defined.

(** An unknown locale tag with no content, and a locale that has no
    property key: HTTP 500. *)
Lemma unknown_locale_is_500_witness :
  POST Url.plain_domain integer_to_string
    (example_world (js "https://youtu.be/dQw4w9WgXcQ") (VString (js "fr")) metadata_down) =
  {| status := 500; content_type := js "application/json";
     body := error_body (message (TypeError_read_undefined "noTranscript")) |} /\
  POST Url.plain_domain integer_to_string
    (example_world (js "https://youtu.be/dQw4w9WgXcQ") odd_locale metadata_down) =
  {| status := 500; content_type := js "application/json";
     body := error_body (message TypeError_to_primitive) |}.
Proof.
  split.
  - exact (proj1 (unknown_locale_is_500 Url.plain_domain integer_to_string
                    (example_world (js "https://youtu.be/dQw4w9WgXcQ")
                       (VString (js "fr")) metadata_down)
                    {| videoUrl := VString (js "https://youtu.be/dQw4w9WgXcQ");
                       locale := VString (js "fr") |}
                    (js "dQw4w9WgXcQ") []
                    eq_refl short_link_extracted rickroll_nonempty eq_refl eq_refl)
             (js "fr") eq_refl french_is_unknown).
  - exact (proj2 (proj2 (unknown_locale_is_500 Url.plain_domain integer_to_string
                    (example_world (js "https://youtu.be/dQw4w9WgXcQ") odd_locale
                       metadata_down)
                    {| videoUrl := VString (js "https://youtu.be/dQw4w9WgXcQ");
                       locale := odd_locale |}
                    (js "dQw4w9WgXcQ") []
                    eq_refl short_link_extracted rickroll_nonempty eq_refl eq_refl))
             TypeError_to_primitive eq_refl).
Defined.

(** The locale tag [constructor] is neither [ko] nor [en], the content is
    empty, and the answer is HTTP 400 with an empty object, not HTTP 500:
    the table inherits a member of that name, whose [noTranscript] is
    [undefined]. *)
Lemma inherited_locale_is_400 :
  js "constructor" <> js "ko" /\
  js "constructor" <> js "en" /\
  video_details (example_world (js "https://youtu.be/dQw4w9WgXcQ")
                   (VString (js "constructor")) metadata_down) (js "dQw4w9WgXcQ")
  = Normal [] /\
  noTranscript_message integer_to_string (VString (js "constructor")) = Normal VUndefined /\
  POST Url.plain_domain integer_to_string
    (example_world (js "https://youtu.be/dQw4w9WgXcQ") (VString (js "constructor"))
       metadata_down) =
  {| status := 400; content_type := js "application/json"; body := VObject [] |} /\
  status (POST Url.plain_domain integer_to_string
            (example_world (js "https://youtu.be/dQw4w9WgXcQ") (VString (js "constructor"))
               metadata_down)) <> 500%Z.
Proof.
  split; [intro H; vm_compute in H; discriminate H|].
  split; [intro H; vm_compute in H; discriminate H|].
  split; [reflexivity|].
  split; [vm_compute; reflexivity|].
  split; [vm_compute; reflexivity|].
  vm_compute. discriminate.
Qed.

(** A locale that is not a string is read at its property key: the array
    that holds [en] reads the English messages. *)
Example array_locale_reads_its_key :
  to_property_key integer_to_string (VArray [VString (js "en")]) = Normal (js "en") /\
  POST Url.plain_domain integer_to_string
    (example_world (js "https://youtu.be/dQw4w9WgXcQ") (VArray [VString (js "en")])
       metadata_down) =
  {| status := 400; content_type := js "application/json";
     body := error_body (noTranscript errorMessages_en) |}.
Proof. split; vm_compute; reflexivity. Qed.

Lemma hello_details :
  video_details hello_world (js "dQw4w9WgXcQ") = Normal hello_text.
Proof. vm_compute. reflexivity. Defined.

Lemma hello_not_blank : is_empty (Str.trim hello_text) = false.
Proof. vm_compute. reflexivity. Defined.

Lemma hello_request :
  chat_request_of integer_to_string (request_locale hello_body) (trim_content hello_text)
  = Normal (request_for_key (js "ko") (trim_content hello_text)).
Proof. vm_compute. reflexivity. Defined.

Lemma silent_details :
  video_details silent_world (js "dQw4w9WgXcQ") = Normal hello_text.
Proof. vm_compute. reflexivity. Defined.

(** The summarization service refuses the call: HTTP 500 with its
    message.  Scenario 6: it answers without a choice: HTTP 500 with
    "Failed to generate summary". *)
Lemma summarization_failure_is_500_witness :
  POST Url.plain_domain integer_to_string hello_world =
  {| status := 500; content_type := js "application/json";
     body := error_body (js "OpenAI failed: " ++ message rate_limit_error) |} /\
  lacks_text silent_completion /\
  POST Url.plain_domain integer_to_string silent_world =
  {| status := 500; content_type := js "application/json";
     body := error_body (js "Failed to generate summary") |}.
Proof.
  split; [|split].
  - exact (proj1 (summarization_failure_is_500 Url.plain_domain integer_to_string
                    hello_world hello_body (js "dQw4w9WgXcQ") hello_text
                    (request_for_key (js "ko") (trim_content hello_text))
                    eq_refl short_link_extracted rickroll_nonempty
                    hello_details hello_not_blank hello_request)
             rate_limit_error eq_refl).
  - exact choices_empty.
  - exact (proj2 (summarization_failure_is_500 Url.plain_domain integer_to_string
                    silent_world hello_body (js "dQw4w9WgXcQ") hello_text
                    (request_for_key (js "ko") (trim_content hello_text))
                    eq_refl short_link_extracted rickroll_nonempty
                    silent_details hello_not_blank hello_request)
             silent_completion eq_refl choices_empty).
Defined.

(** Scenario 5: 70,000 characters are cut to 60,000. *)
Lemma content_is_cut_at_60000_witness :
  (Str.length (repeat (ch "a") (Z.to_nat 70000)) > 60000)%Z /\
  Str.length (trim_content (repeat (ch "a") (Z.to_nat 70000))) = 60000%Z.
Proof.
  assert (L : (Str.length (repeat (ch "a") (Z.to_nat 70000)) > 60000)%Z).
  { unfold Str.length. rewrite repeat_length. lia. }
  split; [exact L|].
  exact (proj1 (proj2 (proj1 (content_is_cut_at_60000 Url.plain_domain integer_to_string
                                (example_world [] VUndefined metadata_down)
                                (repeat (ch "a") (Z.to_nat 70000))) L))).
Defined.

(* ================================================================= *)
(** ** The further properties on concrete requests *)

Lemma short_link_includes_marker :
  Str.includes (js "https://youtu.be/dQw4w9WgXcQ") (js "youtu.be/") = true.
Proof. vm_compute. reflexivity. Defined.

Lemma length_guard_always_holds_witness :
  exists before part1 more,
    Str.split (js "https://youtu.be/dQw4w9WgXcQ") (js "youtu.be/")
    = before :: part1 :: more.
Proof.
  exact (proj1 (length_guard_always_holds (js "https://youtu.be/dQw4w9WgXcQ")
                  (js "youtu.be/") short_link_marker)
           short_link_includes_marker).
Defined.

Lemma embed_is_not_watch :
  Str.includes (js "https://www.youtube.com/embed/dQw4w9WgXcQ") (js "youtube.com/watch")
  = false.
Proof. vm_compute. reflexivity. Defined.

Lemma parser_only_used_for_watch_witness :
  extractYouTubeVideoId Url.plain_domain
    (VString (js "https://www.youtube.com/embed/dQw4w9WgXcQ")) =
  extractYouTubeVideoId no_host
    (VString (js "https://www.youtube.com/embed/dQw4w9WgXcQ")).
Proof.
  exact (parser_only_used_for_watch Url.plain_domain no_host
           (js "https://www.youtube.com/embed/dQw4w9WgXcQ")
           (or_intror embed_is_not_watch)).
Defined.

Lemma extract_is_idempotent_witness :
  extractYouTubeVideoId Url.plain_domain (VString (js "dQw4w9WgXcQ"))
  = Normal (js "dQw4w9WgXcQ").
Proof.
  exact (proj1 (extract_is_idempotent Url.plain_domain) (js "dQw4w9WgXcQ")
           rickroll_identifier).
Defined.

Lemma scheme_has_no_marker : Str.includes (js "https://") (js "youtu.be/") = false.
Proof. vm_compute. reflexivity. Defined.

Lemma sentence_has_no_marker :
  Str.includes (js "Watch this: http://www.") (js "youtu.be/") = false.
Proof. vm_compute. reflexivity. Defined.

Lemma short_link_ignores_what_precedes_witness :
  extractYouTubeVideoId Url.plain_domain
    (VString (js "https://" ++ js "youtu.be/" ++ js "dQw4w9WgXcQ?t=1")) =
  extractYouTubeVideoId Url.plain_domain
    (VString (js "Watch this: http://www." ++ js "youtu.be/" ++ js "dQw4w9WgXcQ?t=1")).
Proof.
  exact (short_link_ignores_what_precedes Url.plain_domain
           (js "https://") (js "Watch this: http://www.") (js "dQw4w9WgXcQ?t=1")
           scheme_has_no_marker sentence_has_no_marker).
Defined.

Lemma embed_after_sentence :
  Str.includes (js "see ") (shape_marker Embed) = false /\
  trailing_content Embed (js "?rel=0") /\
  Forall (fun m => Str.includes
                     (js "see " ++ shape_marker Embed ++ js "dQw4w9WgXcQ" ++ js "?rel=0") m
                   = false)
         (earlier_markers Embed).
Proof.
  split; [vm_compute; reflexivity|]. split.
  - right. exists (ch "?"), (js "rel=0"). split; vm_compute; reflexivity.
  - apply Forall_cons; [vm_compute; reflexivity|].
    apply Forall_cons; [vm_compute; reflexivity|].
    apply Forall_cons; [vm_compute; reflexivity|]. apply Forall_nil.
Defined.

Lemma path_shape_after_any_prefix_witness :
  extractYouTubeVideoId Url.plain_domain
    (VString (js "see " ++ shape_marker Embed ++ js "dQw4w9WgXcQ" ++ js "?rel=0"))
  = Normal (js "dQw4w9WgXcQ").
Proof.
  apply (path_shape_after_any_prefix Url.plain_domain (js "see ") Embed
           (js "dQw4w9WgXcQ") (js "?rel=0")).
  - discriminate.
  - exact rickroll_identifier.
  - exact (proj1 (proj2 embed_after_sentence)).
  - exact (proj1 embed_after_sentence).
  - exact (proj2 (proj2 embed_after_sentence)).
Defined.

Lemma result_occurs_in_input_witness :
  occurs_in (js "dQw4w9WgXcQ") (js "https://youtu.be/dQw4w9WgXcQ").
Proof.
  exact (result_occurs_in_input Url.plain_domain (js "https://youtu.be/dQw4w9WgXcQ")
           (js "dQw4w9WgXcQ") (or_introl short_link_includes_marker)
           short_link_extracted).
Defined.

(** In the watch branch the result need not occur in the input: the value
    of [v] is percent-decoded. *)
Example watch_result_is_decoded :
  extractYouTubeVideoId Url.plain_domain
    (VString (js "https://www.youtube.com/watch?v=dQw4w9%57gXcQ"))
  = Normal (js "dQw4w9WgXcQ") /\
  Str.includes (js "https://www.youtube.com/watch?v=dQw4w9%57gXcQ") (js "dQw4w9WgXcQ")
  = false.
Proof. split; vm_compute; reflexivity. Qed.

Lemma summarized_details :
  video_details summarized_world (js "dQw4w9WgXcQ") = Normal hello_text.
Proof. vm_compute. reflexivity. Defined.

Lemma greeting_nonempty : js "A greeting." <> [].
Proof. vm_compute. discriminate. Defined.

Lemma success_is_200_witness :
  POST Url.plain_domain integer_to_string summarized_world =
  {| status := 200; content_type := js "application/json";
     body := VObject [(js "summary", VString (js "A greeting."))] |}.
Proof.
  exact (success_is_200 Url.plain_domain integer_to_string summarized_world hello_body
           (js "dQw4w9WgXcQ") hello_text
           (request_for_key (js "ko") (trim_content hello_text))
           (completion_of (js "A greeting.")) (js "A greeting.")
           eq_refl short_link_extracted rickroll_nonempty summarized_details
           hello_not_blank hello_request eq_refl eq_refl greeting_nonempty).
Defined.

Lemma summarized_status :
  status (POST Url.plain_domain integer_to_string summarized_world) = 200%Z.
Proof. vm_compute. reflexivity. Defined.

Lemma success_characterised_witness :
  exists b videoId t request c summary,
    req_json summarized_world = Normal b /\
    extractYouTubeVideoId Url.plain_domain (videoUrl b) = Normal videoId /\
    is_video_identifier videoId /\
    video_details summarized_world videoId = Normal t /\
    is_empty (Str.trim t) = false /\
    chat_request_of integer_to_string (request_locale b) (trim_content t) = Normal request /\
    chat_completions_create summarized_world request = Normal c /\
    completion_content c = Some summary /\
    summary <> [] /\
    body (POST Url.plain_domain integer_to_string summarized_world)
    = VObject [(js "summary", VString summary)].
Proof.
  exact (success_characterised Url.plain_domain integer_to_string summarized_world
           summarized_status).
Defined.

Lemma malformed_body_is_500_witness :
  POST Url.plain_domain integer_to_string malformed_world =
  {| status := 500; content_type := js "application/json";
     body := error_body (match message malformed_error with
                         | [] => js "An unexpected error occurred"
                         | _ => message malformed_error
                         end) |}.
Proof.
  exact (malformed_body_is_500 Url.plain_domain integer_to_string malformed_world
           malformed_error eq_refl).
Defined.

Lemma careful_agrees (id : jsstring) :
  is_video_identifier id ->
  youtube_videos hello_world id = youtube_videos careful_world id.
Proof.
  intro H. unfold hello_world, example_world, careful_world. cbn [youtube_videos].
  unfold metadata_for_identifiers. rewrite (proj2 (test_id_identifier id) H).
  reflexivity.
Defined.

Lemma metadata_called_with_identifiers_only_witness :
  POST Url.plain_domain integer_to_string hello_world =
  POST Url.plain_domain integer_to_string careful_world.
Proof.
  apply (metadata_called_with_identifiers_only Url.plain_domain integer_to_string
           hello_world careful_world).
  - reflexivity.
  - intro r. reflexivity.
  - exact careful_agrees.
Defined.

Lemma three_spaces_nonempty : js "   " <> [].
Proof. vm_compute. discriminate. Defined.

Lemma described_video_is_summarized_witness :
  video_details blank_world (js "dQw4w9WgXcQ")
  = Normal (content_source (title blank_snippet) (js "   ")) /\
  handle Url.plain_domain integer_to_string blank_world =
  summarize integer_to_string blank_world (request_locale hello_body)
    (trim_content (content_source (title blank_snippet) (js "   "))).
Proof.
  exact (described_video_is_summarized Url.plain_domain integer_to_string blank_world
           hello_body (js "dQw4w9WgXcQ") blank_response blank_snippet (js "   ")
           eq_refl short_link_extracted rickroll_nonempty eq_refl eq_refl eq_refl
           three_spaces_nonempty).
Defined.

(** The locale [fr]. *)
Lemma unknown_locale_uses_generic_prompts_witness :
  chat_request_of integer_to_string (VString (js "fr")) hello_text =
  Normal
    {| messages :=
         [ {| role := js "system";
              prompt := Text (js "You are a helpful video summarizer.") |};
           {| role := js "user";
              prompt := Text (js "Please summarize this content: " ++ hello_text) |} ];
       model := js "gpt-4o";
       max_tokens := 2000;
       temperature_tenths := 7 |}.
Proof.
  exact (unknown_locale_uses_generic_prompts integer_to_string (VString (js "fr"))
           (js "fr") hello_text eq_refl french_is_unknown).
Defined.

Lemma default_config_loaded :
  I18n.getRequestConfig jsstring bundle_files None = Normal ko_config.
Proof. vm_compute. reflexivity. Defined.

Lemma bundle_matches_locale_witness :
  I18n.getRequestConfig jsstring bundle_files None = Normal ko_config /\
  I18n.locale ko_config <> [] /\
  bundle_files (js "../messages/" ++ I18n.locale ko_config ++ js ".json")
  = Normal (I18n.messages ko_config).
Proof.
  split; [exact default_config_loaded|].
  split.
  - exact (proj1 (proj1 (bundle_matches_locale jsstring bundle_files None)
                    ko_config default_config_loaded)).
  - exact (proj1 (proj2 (proj1 (bundle_matches_locale jsstring bundle_files None)
                           ko_config default_config_loaded))).
Defined.
